(** * plot_abtc_btc: the numeric pipeline, the SVG rendering and the CSV
    loading of [scripts/plot_abtc_btc.py], embedded function by function.

    Numbers.  Python floats are IEEE binary64 numbers: they are modelled by
    Rocq's primitive floats, which implement the same format with the same
    rounding (to nearest, ties to even).  The arithmetic the source uses is
    gathered in the class [Num], so that every function is written once, the
    way the source writes it; [binary64] is the instance the program runs
    on, [exactQ] evaluates the same code text over the rationals, without
    rounding.  Python ints are unbounded: they are [Z].

    Effects.  Python exceptions are values of [exn]; every function that can
    raise returns a [result].  The file system that receives the chart is a
    map from paths to texts; the CSV file is the list of its records, and
    the loader reports how many of them it has taken.

    Library code.  [str] of a float, [datetime.fromisoformat] and [float] of
    a text belong to the interpreter: they are parameters of the sections
    that call them.  The [f] presentation type of f-strings, [strftime] with
    ["%b %d"], [min], [max], [sum], [range] and [csv.DictReader] are written
    out. *)

From Stdlib Require Import ZArith QArith Qabs String Ascii List Bool Lia.
From Stdlib Require Import Floats DecimalString.
From Stdlib Require Import Sorted Lqa.
Import ListNotations.

Set Implicit Arguments.
Local Open Scope Z_scope.

(** ** Exceptions and results *)

Inductive exn : Type :=
| ValueError (msg : string)
| TypeError
| KeyError (key : string)
| IndexError
| ZeroDivisionError.

(** The name of the class of an exception, what an [except] clause or a
    caller can tell apart. *)
Definition exn_class (e : exn) : string :=
  match e with
  | ValueError _ => "ValueError"
  | TypeError => "TypeError"
  | KeyError _ => "KeyError"
  | IndexError => "IndexError"
  | ZeroDivisionError => "ZeroDivisionError"
  end.

Inductive result (A : Type) : Type :=
| Ok (a : A)
| Raise (e : exn).

Arguments Ok {A} a.
Arguments Raise {A} e.

Definition bind {A B : Type} (m : result A) (k : A -> result B) : result B :=
  match m with
  | Ok a => k a
  | Raise e => Raise e
  end.

Declare Scope py_scope.
Delimit Scope py_scope with py.
Notation "x <- m ;; k" := (bind m (fun x => k))
  (at level 61, m at next level, right associativity) : py_scope.
Notation "' pat <- m ;; k" := (bind m (fun x => match x with pat => k end))
  (at level 61, pat pattern, m at next level, right associativity) : py_scope.
Local Open Scope py_scope.

Fixpoint mapM {A B : Type} (f : A -> result B) (l : list A) : result (list B) :=
  match l with
  | [] => Ok []
  | a :: rest =>
      b <- f a ;;
      bs <- mapM f rest ;;
      Ok (b :: bs)
  end.

(** ** Numbers *)

(** What a number is worth, for display: the sign is kept apart so that a
    negative zero prints its sign, as Python does. *)
Inductive fval : Type :=
| FNaN
| FInf (neg : bool)
| FFin (neg : bool) (mag : Q).

(** The operations the source applies to its floats.  [of_int] is the
    conversion Python inserts when an [int] meets a [float]; [of_decimal m k]
    is the literal worth [m / 10^k]. *)
Class Num (F : Type) : Type := {
  fadd : F -> F -> F;
  fsub : F -> F -> F;
  fmul : F -> F -> F;
  fdiv : F -> F -> F;
  feqb : F -> F -> bool;
  fltb : F -> F -> bool;
  fleb : F -> F -> bool;
  of_int : Z -> F;
  of_decimal : Z -> nat -> F;
  decode : F -> fval
}.

Definition pow2Q (e : Z) : Q :=
  match e with
  | Z0 => 1%Q
  | Zpos p => inject_Z (Z.pow_pos 2 p)
  | Zneg p => (1 # Pos.pow 2 p)%Q
  end.

Definition decode_float (x : float) : fval :=
  match Prim2SF x with
  | S754_nan => FNaN
  | S754_infinity s => FInf s
  | S754_zero s => FFin s 0%Q
  | S754_finite s m e => FFin s (Qmult (inject_Z (Zpos m)) (pow2Q e))
  end.

(** int -> float, rounded to nearest even as [PyLong_AsDouble] does. *)
Definition float_of_int (z : Z) : float :=
  SF2Prim (binary_normalize prec emax z 0 false).

#[export] Instance binary64 : Num float := {
  fadd := PrimFloat.add;
  fsub := PrimFloat.sub;
  fmul := PrimFloat.mul;
  fdiv := PrimFloat.div;
  feqb := PrimFloat.eqb;
  fltb := PrimFloat.ltb;
  fleb := PrimFloat.leb;
  of_int := float_of_int;
  of_decimal := fun m k => PrimFloat.div (float_of_int m) (float_of_int (10 ^ Z.of_nat k));
  decode := decode_float
}.


Section Statistics.
Context {F : Type} `{Num F}.

(** [x / y]: Python raises where IEEE would return an infinity or a NaN.
    An [int] operand is converted with [of_int] first; lists have fewer than
    2^63 items, so the ints met here are far below 2^1024, where the
    conversion itself would raise. *)
Definition truediv (x y : F) : result F :=
  if feqb y (of_int 0) then Raise ZeroDivisionError else Ok (fdiv x y).

(** [sum(values)]: the start value is the int [0], items are added from
    left to right, as the language reference has it (CPython from 3.12 on
    compensates the rounding errors of the additions; no property below
    depends on how the sum is rounded). *)
Definition py_sum (values : list F) : F :=
  fold_left fadd values (of_int 0).

Definition sum_int (l : list Z) : Z := fold_left Z.add l 0.

(** [range(n)] *)
Definition range (n : nat) : list Z := map Z.of_nat (seq 0 n).

Definition compute_trendline (values : list F) : result (list F) :=
  let n := Z.of_nat (length values) in
  if n =? 0 then Ok []
  else
    let xs := range (length values) in
    let sum_x := sum_int xs in
    let sum_y := py_sum values in
    let sum_xx := sum_int (map (fun x => x * x) xs) in
    let sum_xy := py_sum (map (fun xy => fmul (of_int (fst xy)) (snd xy)) (combine xs values)) in
    let denom := n * sum_xx - sum_x * sum_x in
    slope <- (if denom =? 0 then Ok (of_int 0)
              else truediv (fsub (fmul (of_int n) sum_xy) (fmul (of_int sum_x) sum_y))
                           (of_int denom)) ;;
    intercept <- truediv (fsub sum_y (fmul slope (of_int sum_x))) (of_int n) ;;
    Ok (map (fun x => fadd (fmul slope (of_int x)) intercept) xs).

(** The loop of [compute_fluctuation] over [zip(values, values[1:])];
    [acc] is the list [result] built so far. *)
Fixpoint fluctuation_loop (pairs : list (F * F)) (acc : list F) : result (list F) :=
  match pairs with
  | [] => Ok acc
  | (prev, curr) :: rest =>
      if feqb prev (of_int 0) then fluctuation_loop rest (acc ++ [of_int 0])
      else
        q <- truediv (fsub curr prev) prev ;;
        fluctuation_loop rest (acc ++ [fmul q (of_int 100)])
  end.

Definition compute_fluctuation (values : list F) : result (list F) :=
  match values with
  | [] => Ok []
  | _ :: rest => fluctuation_loop (combine values rest) [of_int 0]
  end.

Definition compute_relative_change (values : list F) : result (list F) :=
  match values with
  | [] => Ok []
  | baseline :: _ =>
      if feqb baseline (of_int 0) then Ok (map (fun _ => of_int 0) values)
      else mapM (fun value =>
                   q <- truediv (fsub value baseline) baseline ;;
                   Ok (fmul q (of_int 100))) values
  end.

End Statistics.

(** ** Built-in [min] and [max] *)

Section MinMax.
Context {F : Type} `{Num F}.

(** [min(iterable)] keeps the first item and replaces it by every later
    item that compares strictly below it. *)
Fixpoint min_loop (acc : F) (items : list F) : F :=
  match items with
  | [] => acc
  | item :: rest => min_loop (if fltb item acc then item else acc) rest
  end.

(** [max(iterable)]: replaced by every later item with [item > acc]. *)
Fixpoint max_loop (acc : F) (items : list F) : F :=
  match items with
  | [] => acc
  | item :: rest => max_loop (if fltb acc item then item else acc) rest
  end.

Definition py_min (items : list F) : result F :=
  match items with
  | [] => Raise (ValueError "min() arg is an empty sequence")
  | first :: rest => Ok (min_loop first rest)
  end.

Definition py_max (items : list F) : result F :=
  match items with
  | [] => Raise (ValueError "max() arg is an empty sequence")
  | first :: rest => Ok (max_loop first rest)
  end.

(** [min(a, b)] and [max(a, b)] *)
Definition py_min2 (a b : F) : F := min_loop a [b].
Definition py_max2 (a b : F) : F := max_loop a [b].

End MinMax.

(** ** Text formatting *)

Local Open Scope string_scope.
Local Open Scope Z_scope.

Notation "l +++ m" := (@List.app _ l m) (at level 60, right associativity).

Definition newline : string := String (ascii_of_nat 10) EmptyString.

(** Decimal digits of a natural number given as a non-negative [Z]. *)
Definition digits_of (n : Z) : string :=
  NilZero.string_of_uint (N.to_uint (Z.to_N n)).

(** [str(z)] for an int, as an f-string field [{z}] prints it. *)
Definition str_int (z : Z) : string :=
  if z <? 0 then "-" ++ digits_of (- z) else digits_of z.

(** Nearest integer of a non-negative rational, ties to even: the rounding of
    the [f] presentation type, which works on the exact value of the float. *)
Definition round_half_even (q : Q) : Z :=
  let n := Qnum q in
  let d := Zpos (Qden q) in
  let k := n / d in
  let r := n mod d in
  match (2 * r) ?= d with
  | Lt => k
  | Gt => k + 1
  | Eq => if Z.even k then k else k + 1
  end.

Fixpoint zeros (n : nat) : string :=
  match n with
  | O => ""
  | S m => "0" ++ zeros m
  end.

Definition pad_zeros (width : nat) (s : string) : string :=
  zeros (width - String.length s) ++ s.

(** Thousands separators, on the reversed digits; [k] digits of the current
    group are already out. *)
Fixpoint commas_rev (rev_digits : list ascii) (k : nat) : list ascii :=
  match rev_digits with
  | [] => []
  | c :: rest =>
      if Nat.eqb k 3 then ","%char :: c :: commas_rev rest 1
      else c :: commas_rev rest (S k)
  end.

Definition group_thousands (digits : string) : string :=
  string_of_list_ascii (rev (commas_rev (rev (list_ascii_of_string digits)) 0)).

(** [format(x, ",.{precision}f")] when [grouping], [format(x, ".{precision}f")]
    otherwise. *)
Definition format_fixed (grouping : bool) (precision : nat) (x : fval) : string :=
  match x with
  | FNaN => "nan"
  | FInf neg => if neg then "-inf" else "inf"
  | FFin neg mag =>
      let scale := 10 ^ Z.of_nat precision in
      let n := round_half_even (Qmult mag (inject_Z scale)) in
      let int_digits := digits_of (n / scale) in
      let int_text := if grouping then group_thousands int_digits else int_digits in
      let frac_text :=
        match precision with
        | O => ""
        | _ => "." ++ pad_zeros precision (digits_of (n mod scale))
        end in
      (if neg then "-" else "") ++ int_text ++ frac_text
  end.

Section Formatting.
Context {F : Type} `{Num F}.

(** [f"{x:.2f}"] *)
Definition fmt2 (x : F) : string := format_fixed false 2 (decode x).

Definition _format_currency (value : F) : string :=
  if fleb (of_int 1000) value || fleb value (of_int (-1000))
  then "$" ++ format_fixed true 0 (decode value)
  else "$" ++ format_fixed true 2 (decode value).

Definition _format_percent (value : F) : string :=
  format_fixed false 1 (decode value) ++ "%".

End Formatting.

(** ** Dates *)

(** A [datetime.datetime]; only the month and the day reach the chart. *)
Record datetime : Type := {
  year : Z;
  month : Z;
  day : Z;
  hour : Z;
  minute : Z;
  second : Z
}.

(** [%b] in the C locale, the one a Python process runs in unless it calls
    [setlocale], which this program never does. *)
Definition month_abbr (m : Z) : string :=
  match m with
  | 1 => "Jan" | 2 => "Feb" | 3 => "Mar" | 4 => "Apr"
  | 5 => "May" | 6 => "Jun" | 7 => "Jul" | 8 => "Aug"
  | 9 => "Sep" | 10 => "Oct" | 11 => "Nov" | 12 => "Dec"
  | _ => ""
  end.

(** [d.strftime("%b %d")] *)
Definition strftime_b_d (d : datetime) : string :=
  month_abbr (month d) ++ " " ++ pad_zeros 2 (digits_of (day d)).

(** ** Dictionaries and sequences *)

(** A [dict] with string keys, in insertion order. *)
Definition dict (V : Type) : Type := list (string * V).

Fixpoint dict_get {V : Type} (d : dict V) (key : string) : result V :=
  match d with
  | [] => Raise (KeyError key)
  | (k, v) :: rest => if String.eqb k key then Ok v else dict_get rest key
  end.

(** [d[key] = v]: an existing key keeps its place. *)
Fixpoint dict_set {V : Type} (d : dict V) (key : string) (v : V) : dict V :=
  match d with
  | [] => [(key, v)]
  | (k, w) :: rest =>
      if String.eqb k key then (k, v) :: rest else (k, w) :: dict_set rest key v
  end.

(** [l[i]] for [0 <= i] *)
Definition list_get {A : Type} (l : list A) (i : Z) : result A :=
  match nth_error l (Z.to_nat i) with
  | Some a => Ok a
  | None => Raise IndexError
  end.

(** [l[-1]] *)
Definition list_last {A : Type} (l : list A) : result A :=
  match rev l with
  | a :: _ => Ok a
  | [] => Raise IndexError
  end.

(** [range(0, stop, step)] for a positive [step]: the items [k * step] with
    [k] below the length [ceil(stop / step)]. *)
Definition range_step (stop step : Z) : list Z :=
  map (fun k => Z.of_nat k * step) (seq 0 (Z.to_nat ((stop + step - 1) / step))).

(** ** The chart *)

Record PriceSeries (F : Type) : Type := {
  dates : list datetime;
  prices : dict (list F)
}.

Definition ASSETS : list string := ["ABTC"; "BTC"].
Definition PRICE_COLORS : dict string := [("ABTC", "#2ca02c"); ("BTC", "#1f77b4")].
Definition TRENDLINE_COLORS : dict string := [("ABTC", "#98df8a"); ("BTC", "#aec7e8")].
Definition FLUCTUATION_COLORS : dict string := [("ABTC", "#d62728"); ("BTC", "#ff7f0e")].

Definition width : Z := 1000.
Definition height : Z := 620.
Definition margin_left : Z := 90.
Definition margin_right : Z := 110.
Definition margin_top : Z := 70.
Definition margin_bottom : Z := 80.
Definition plot_width : Z := width - margin_left - margin_right.
Definition plot_height : Z := height - margin_top - margin_bottom.
Definition bottom : Z := margin_top + plot_height.
Definition price_ticks : Z := 6.
Definition fluct_ticks : Z := 6.

(** Truth value of a string: empty is false. *)
Definition truthy (s : string) : bool :=
  match s with
  | EmptyString => false
  | _ => true
  end.

Section Scales.
Context {F : Type} `{Num F}.

Definition _linspace (start stop : Z) (count : Z) : result (list F) :=
  if count =? 1 then Ok [of_int start]
  else
    step <- truediv (of_int (stop - start)) (of_int (count - 1)) ;;
    Ok (map (fun i => fadd (of_int start) (fmul step (of_int i))) (range (Z.to_nat count))).

(** [{asset: compute_relative_change(values) for asset, values in items}] *)
Definition relative_prices_of (items : dict (list F)) : result (dict (list F)) :=
  mapM (fun av => r <- compute_relative_change (snd av) ;; Ok (fst av, r)) items.

(** [rel_min], [rel_max] and [rel_range], lines 161-163. *)
Definition left_scale (relative_prices : dict (list F)) : result (F * F * F) :=
  mins <- mapM (fun av => py_min (snd av)) relative_prices ;;
  rel_min <- py_min mins ;;
  maxs <- mapM (fun av => py_max (snd av)) relative_prices ;;
  rel_max <- py_max maxs ;;
  let rel_range := if negb (feqb rel_max rel_min) then fsub rel_max rel_min else of_int 1 in
  Ok (rel_min, rel_max, rel_range).

(** The loop of lines 167-171: the state is the dict [fluctuation] and the
    two accumulators. *)
Fixpoint fluct_loop (items : dict (list F)) (fluctuation : dict (list F))
         (fluct_min fluct_max : F) : result (dict (list F) * F * F) :=
  match items with
  | [] => Ok (fluctuation, fluct_min, fluct_max)
  | (asset, values) :: rest =>
      fluct <- compute_fluctuation values ;;
      lo <- py_min fluct ;;
      hi <- py_max fluct ;;
      fluct_loop rest (dict_set fluctuation asset fluct)
                 (py_min2 fluct_min lo) (py_max2 fluct_max hi)
  end.

(** Lines 165-171: the raw range of the right scale. *)
Definition fluct_raw (items : dict (list F)) : result (dict (list F) * F * F) :=
  fluct_loop items [] (of_int 0) (of_int 0).

(** Lines 172-174. *)
Definition fluct_nudge (range : F * F) : F * F :=
  let '(fluct_min, fluct_max) := range in
  if feqb fluct_min fluct_max
  then (fsub fluct_min (of_int 1), fadd fluct_max (of_int 1))
  else (fluct_min, fluct_max).

(** Lines 175-177. *)
Definition fluct_pad (range : F * F) : F * F :=
  let '(fluct_min, fluct_max) := range in
  let fluct_padding := fmul (fsub fluct_max fluct_min) (of_decimal 5 2) in
  (fsub fluct_min fluct_padding, fadd fluct_max fluct_padding).

(** Lines 165-177: the domain of the right scale, as [fluct_y] sees it. *)
Definition fluct_domain (items : dict (list F)) : result (dict (list F) * F * F) :=
  '(fluctuation, fluct_min, fluct_max) <- fluct_raw items ;;
  let '(fluct_min, fluct_max) := fluct_pad (fluct_nudge (fluct_min, fluct_max)) in
  Ok (fluctuation, fluct_min, fluct_max).

Definition price_y (rel_min rel_range : F) (value : F) : result F :=
  normalized <- truediv (fsub value rel_min) rel_range ;;
  Ok (fsub (of_int (margin_top + plot_height)) (fmul normalized (of_int plot_height))).

Definition fluct_y (fluct_min fluct_max : F) (value : F) : result F :=
  normalized <- truediv (fsub value fluct_min) (fsub fluct_max fluct_min) ;;
  Ok (fsub (of_int (margin_top + plot_height)) (fmul normalized (of_int plot_height))).

(** Lines 228-229. *)
Definition label_step (count : Z) : Z :=
  let label_count := Z.min 6 count in
  if 1 <? label_count then Z.max 1 (count / (label_count - 1)) else 1.

(** The indices of the dates that get a label, in the order lines 230-234
    emit them. *)
Definition label_indices (count : Z) : list Z :=
  let step := label_step count in
  (range_step count step
     ++ (if negb ((count - 1) mod step =? 0) then [count - 1] else []))%list.

End Scales.

(** The file system the chart is written to: a path holds a text or nothing. *)
Definition filesystem : Type := string -> option string.

(** [path.write_text(text)] *)
Definition write_text (fs : filesystem) (path text : string) : filesystem :=
  fun p => if String.eqb p path then Some text else fs p.

Section Drawing.
Context {F : Type} `{Num F}.

(** [str(x)] of a float, what the field [{width}] of [_svg_polyline] prints:
    the interpreter's shortest round-trip representation, left abstract. *)
Variable float_str : F -> string.

Definition _svg_polyline (points : list (F * F)) (color : string) (width : F)
           (dash : option string) : string :=
  let attrs :=
    ["fill='none'";
     "stroke='" ++ color ++ "'";
     "stroke-width='" ++ float_str width ++ "'"]
      +++ match dash with
          | Some d => if truthy d then ["stroke-dasharray='" ++ d ++ "'"] else []
          | None => []
          end in
  let coord_str :=
    String.concat " " (map (fun p => fmt2 (fst p) ++ "," ++ fmt2 (snd p)) points) in
  "<polyline " ++ String.concat " " attrs ++ " points='" ++ coord_str ++ "' />".

Definition _svg_text (x y : F) (text anchor : string) (size : Z) : string :=
  "<text x='" ++ fmt2 x ++ "' y='" ++ fmt2 y ++ "' text-anchor='" ++ anchor ++ "' "
    ++ "font-family='Arial, sans-serif' font-size='" ++ str_int size
    ++ "' fill='#333'>" ++ text ++ "</text>".

(** Lines 199-206: one grid line and its label per tick. *)
Definition grid_tick (rel_min rel_range : F) (i : Z) : result (list string) :=
  tick <- truediv rel_range (of_int (price_ticks - 1)) ;;
  let value := fadd rel_min (fmul tick (of_int i)) in
  y <- price_y rel_min rel_range value ;;
  Ok ["<line x1='" ++ str_int margin_left ++ "' y1='" ++ fmt2 y
        ++ "' x2='" ++ str_int (margin_left + plot_width) ++ "' y2='" ++ fmt2 y ++ "' "
        ++ "stroke='#e0e0e0' stroke-dasharray='4 6' />";
      _svg_text (of_int (margin_left - 10)) (fadd y (of_int 5))
                (_format_percent value) "end" 14].

(** Lines 209-218. *)
Definition axis_lines : list string :=
  ["<line x1='" ++ str_int margin_left ++ "' y1='" ++ str_int margin_top
     ++ "' x2='" ++ str_int margin_left ++ "' y2='" ++ str_int bottom
     ++ "' stroke='#333' stroke-width='1.5'/>";
   "<line x1='" ++ str_int margin_left ++ "' y1='" ++ str_int bottom
     ++ "' x2='" ++ str_int (margin_left + plot_width) ++ "' y2='" ++ str_int bottom
     ++ "' stroke='#333' stroke-width='1.5'/>";
   "<line x1='" ++ str_int (margin_left + plot_width) ++ "' y1='" ++ str_int margin_top
     ++ "' x2='" ++ str_int (margin_left + plot_width) ++ "' y2='" ++ str_int bottom
     ++ "' stroke='#333' stroke-width='1.5'/>"].

(** Lines 222-225. *)
Definition fluct_tick (fluct_min fluct_max : F) (i : Z) : result string :=
  tick <- truediv (fsub fluct_max fluct_min) (of_int (fluct_ticks - 1)) ;;
  let value := fadd fluct_min (fmul tick (of_int i)) in
  y <- fluct_y fluct_min fluct_max value ;;
  Ok (_svg_text (of_int (margin_left + plot_width + 10)) (fadd y (of_int 5))
                (_format_percent value) "start" 14).

(** The label of lines 231-232 for the date at [idx]. *)
Definition date_label (series_dates : list datetime) (xs : list F) (idx : Z) : result string :=
  d <- list_get series_dates idx ;;
  x <- list_get xs idx ;;
  Ok (_svg_text x (of_int (bottom + 25)) (strftime_b_d d) "middle" 14).

(** Lines 228-234. *)
Definition x_axis_labels (series_dates : list datetime) (xs : list F) (count : Z)
  : result (list string) :=
  let step := label_step count in
  stride_labels <- mapM (date_label series_dates xs) (range_step count step) ;;
  last_label <-
    (if negb ((count - 1) mod step =? 0)
     then
       x <- list_last xs ;;
       d <- list_last series_dates ;;
       Ok [_svg_text x (of_int (bottom + 25)) (strftime_b_d d) "middle" 14]
     else Ok []) ;;
  Ok (stride_labels +++ last_label).

(** [list(zip(xs, (to_y(val) for val in values)))] *)
Definition zip_points (to_y : F -> result F) (xs values : list F) : result (list (F * F)) :=
  mapM (fun xv => y <- to_y (snd xv) ;; Ok (fst xv, y)) (combine xs values).

(** Lines 237-249, one turn of the loop. *)
Definition price_polylines (rel_min rel_range : F) (xs : list F)
           (relative_prices price_trendlines : dict (list F)) (asset : string)
  : result (list string) :=
  rel <- dict_get relative_prices asset ;;
  price_points <- zip_points (price_y rel_min rel_range) xs rel ;;
  price_color <- dict_get PRICE_COLORS asset ;;
  trend <- dict_get price_trendlines asset ;;
  trend_points <- zip_points (price_y rel_min rel_range) xs trend ;;
  trend_color <- dict_get TRENDLINE_COLORS asset ;;
  Ok [_svg_polyline price_points price_color (of_int 3) None;
      _svg_polyline trend_points trend_color (of_int 2) (Some "6 6")].

(** Lines 252-261, one turn of the loop. *)
Definition fluct_polyline (fluct_min fluct_max : F) (xs : list F)
           (fluctuation : dict (list F)) (asset : string) : result string :=
  fluct <- dict_get fluctuation asset ;;
  fluct_points <- zip_points (fluct_y fluct_min fluct_max) xs fluct ;;
  color <- dict_get FLUCTUATION_COLORS asset ;;
  Ok (_svg_polyline fluct_points color (of_int 2) (Some "2 6")).

(** Lines 264-276. *)
Definition titles : result (list string) :=
  half_width <- truediv (of_int width) (of_int 2) ;;
  half_margin <- truediv (of_int margin_right) (of_int 2) ;;
  Ok [_svg_text half_width (of_int (margin_top - 25))
                "ABTC vs BTC % Change & Daily Fluctuations" "middle" 22;
      _svg_text half_width (of_int (height - 25)) "Date" "middle" 16;
      _svg_text (of_int (margin_left - 60)) (of_int (margin_top - 30)) "% Change" "middle" 16;
      _svg_text (fsub (of_int width) half_margin) (of_int (margin_top - 30))
                "Daily Change" "middle" 16].

Definition legend_x : Z := margin_left + 20.
Definition legend_y : Z := margin_top + 20.
Definition legend_spacing : Z := 22.

Definition legend_items : list (string * string * option string) :=
  [("ABTC % Change", "#2ca02c", None);
   ("ABTC Trendline", "#98df8a", Some "6 6");
   ("ABTC Daily %", "#d62728", Some "2 6");
   ("BTC % Change", "#1f77b4", None);
   ("BTC Trendline", "#aec7e8", Some "6 6");
   ("BTC Daily %", "#ff7f0e", Some "2 6")].

(** Lines 290-296, one turn of the loop. *)
Definition legend_entry (index : Z) (item : string * string * option string) : list string :=
  let '(label, color, dash) := item in
  let y := legend_y + index * legend_spacing in
  ["<line x1='" ++ str_int legend_x ++ "' y1='" ++ fmt2 (of_int y)
     ++ "' x2='" ++ str_int (legend_x + 28) ++ "' y2='" ++ fmt2 (of_int y) ++ "' "
     ++ "stroke='" ++ color ++ "' stroke-width='3'"
     ++ match dash with
        | Some d => if truthy d then " stroke-dasharray='" ++ d ++ "'" else ""
        | None => ""
        end
     ++ "/>";
   _svg_text (of_int (legend_x + 40)) (of_int (y + 5)) label "start" 14].

(** [svg_parts] at line 300. *)
Definition svg_parts (series : PriceSeries F) : result (list string) :=
  let count := Z.of_nat (length (dates series)) in
  xs <- _linspace margin_left (margin_left + plot_width) count ;;
  relative_prices <- relative_prices_of (prices series) ;;
  '(rel_min, _, rel_range) <- left_scale relative_prices ;;
  '(fluctuation, fluct_min, fluct_max) <- fluct_domain (prices series) ;;
  price_trendlines <-
    mapM (fun av => t <- compute_trendline (snd av) ;; Ok (fst av, t)) relative_prices ;;
  grid <- mapM (grid_tick rel_min rel_range) (range (Z.to_nat price_ticks)) ;;
  right_labels <- mapM (fluct_tick fluct_min fluct_max) (range (Z.to_nat fluct_ticks)) ;;
  date_labels <- x_axis_labels (dates series) xs count ;;
  price_lines <-
    mapM (price_polylines rel_min rel_range xs relative_prices price_trendlines) ASSETS ;;
  fluct_lines <- mapM (fluct_polyline fluct_min fluct_max xs fluctuation) ASSETS ;;
  title_texts <- titles ;;
  Ok (["<?xml version='1.0' encoding='utf-8'?>";
       "<svg xmlns='http://www.w3.org/2000/svg' width='" ++ str_int width
         ++ "' height='" ++ str_int height
         ++ "' viewBox='0 0 " ++ str_int width ++ " " ++ str_int height ++ "'>";
       "<rect width='100%' height='100%' fill='white'/>"]
        +++ concat grid
        +++ axis_lines
        +++ right_labels
        +++ date_labels
        +++ concat price_lines
        +++ fluct_lines
        +++ title_texts
        +++ concat (map (fun ie => legend_entry (fst ie) (snd ie))
                        (combine (range (length legend_items)) legend_items))
        +++ ["</svg>"]).

Definition render_svg (series : PriceSeries F) (output_path : string) (fs : filesystem)
  : result filesystem :=
  parts <- svg_parts series ;;
  Ok (write_text fs output_path (String.concat newline parts)).

End Drawing.

(** ** Loading the prices *)

Fixpoint foldM {A B : Type} (f : A -> B -> result A) (l : list B) (a : A) : result A :=
  match l with
  | [] => Ok a
  | b :: rest => a' <- f a b ;; foldM f rest a'
  end.

(** [d[key].append(v)] *)
Fixpoint dict_append {V : Type} (d : dict (list V)) (key : string) (v : V) : result (dict (list V)) :=
  match d with
  | [] => Raise (KeyError key)
  | (k, l) :: rest =>
      if String.eqb k key then Ok ((k, l +++ [v]) :: rest)
      else rest' <- dict_append rest key v ;; Ok ((k, l) :: rest')
  end.

Section Loading.
Context {F : Type}.

(** [datetime.fromisoformat] and [float] applied to a cell: library code,
    each returns a value or raises. *)
Variable fromisoformat : string -> result datetime.
Variable float_of_str : string -> result F.

(** The file as [csv.reader] cuts it into records; [csv.DictReader] takes
    the first record as [fieldnames] and pairs every later one with it. *)
Definition csv_file : Type := list (list string).

(** [reader.fieldnames or []] *)
Definition fieldnames_or_empty (file : csv_file) : list string :=
  match file with
  | [] => []
  | first :: _ => first
  end.

Definition contains (l : list string) (s : string) : bool := existsb (String.eqb s) l.

(** [row[key]] in the dict [csv.DictReader] builds: [dict(zip(fieldnames,
    row))], then [None] for the field names a short record leaves out. *)
Definition row_get (fields row : list string) (key : string) : result (option string) :=
  if contains (skipn (length row) fields) key then Ok None
  else
    match find (fun kv => String.eqb (fst kv) key) (rev (combine fields row)) with
    | Some kv => Ok (Some (snd kv))
    | None => Raise (KeyError key)
    end.

Definition parse_cell {A : Type} (parse : string -> result A) (cell : option string) : result A :=
  match cell with
  | Some text => parse text
  | None => Raise TypeError
  end.

(** Lines 53-57, one turn of the loop. *)
Definition read_row (fields row : list string) (st : list datetime * dict (list F))
  : result (list datetime * dict (list F)) :=
  let '(dates, prices) := st in
  cell <- row_get fields row "date" ;;
  date <- parse_cell fromisoformat cell ;;
  prices' <- foldM (fun prices asset =>
                      cell <- row_get fields row asset ;;
                      value <- parse_cell float_of_str cell ;;
                      dict_append prices asset value) ASSETS prices ;;
  Ok (dates +++ [date], prices').

(** The loop of line 52; the second component counts the records taken
    from the file so far.  [csv.DictReader] passes over empty records. *)
Fixpoint read_rows (fields : list string) (records : csv_file) (taken : nat)
         (st : list datetime * dict (list F))
  : result (list datetime * dict (list F)) * nat :=
  match records with
  | [] => (Ok st, taken)
  | [] :: rest => read_rows fields rest (S taken) st
  | row :: rest =>
      match read_row fields row st with
      | Ok st' => read_rows fields rest (S taken) st'
      | Raise e => (Raise e, S taken)
      end
  end.

(** [load_price_data]: the outcome, and how many data records were taken
    from the file.  [ASSETS] is in alphabetical order, so [sorted(missing)]
    lists the missing assets in the order of [ASSETS]. *)
Definition load_price_data (file : csv_file) : result (PriceSeries F) * nat :=
  let fieldnames := fieldnames_or_empty file in
  let missing := filter (fun asset => negb (contains fieldnames asset)) ASSETS in
  if negb (contains fieldnames "date")
  then (Raise (ValueError "CSV must contain a 'date' column"), O)
  else
    match missing with
    | _ :: _ =>
        (Raise (ValueError ("CSV is missing expected asset columns: "
                              ++ String.concat ", " missing)), O)
    | [] =>
        match read_rows fieldnames (tl file) O ([], map (fun asset => (asset, [])) ASSETS) with
        | (Raise e, taken) => (Raise e, taken)
        | (Ok ([], _), taken) => (Raise (ValueError "No rows found in price CSV"), taken)
        | (Ok (dates, prices), taken) => (Ok {| dates := dates; prices := prices |}, taken)
        end
    end.

End Loading.

(** ** The program *)

Section Program.
Variable float_str : float -> string.
Variable fromisoformat : string -> result datetime.
Variable float_of_str : string -> result float.


End Program.

(** ** The quantities the specification names *)

Section Reference.
Context {F : Type} `{Num F}.

(** One day's percentage change, with the clamp on a zero predecessor. *)
Definition pct_change (prev curr : F) : F :=
  if feqb prev (of_int 0) then of_int 0
  else fmul (fdiv (fsub curr prev) prev) (of_int 100).

(** Percentage deviation from a baseline. *)
Definition pct_from (baseline value : F) : F :=
  fmul (fdiv (fsub value baseline) baseline) (of_int 100).

(** The sums of ordinary least squares over the indices [0..n-1]. *)
Definition Sx (n : nat) : Z := sum_int (range n).
Definition Sxx (n : nat) : Z := sum_int (map (fun x => x * x) (range n)).
Definition Sy (values : list F) : F := py_sum values.
Definition Sxy (values : list F) : F :=
  py_sum (map (fun xy => fmul (of_int (fst xy)) (snd xy))
              (combine (range (length values)) values)).

(** [n * Sxx - Sx^2] *)
Definition ols_denominator (n : nat) : Z :=
  Z.of_nat n * Sxx n - Sx n * Sx n.

Definition ols_slope (values : list F) : F :=
  let n := length values in
  fdiv (fsub (fmul (of_int (Z.of_nat n)) (Sxy values)) (fmul (of_int (Sx n)) (Sy values)))
       (of_int (ols_denominator n)).

Definition ols_intercept (slope : F) (values : list F) : F :=
  let n := length values in
  fdiv (fsub (Sy values) (fmul slope (of_int (Sx n)))) (of_int (Z.of_nat n)).

Definition mean (values : list F) : F :=
  fdiv (py_sum values) (of_int (Z.of_nat (length values))).

(** The fitted values [slope * i + intercept] for [i] in [0..n-1]. *)
Definition fitted (slope intercept : F) (n : nat) : list F :=
  map (fun i => fadd (fmul slope (of_int i)) intercept) (range n).

(** The trendline as the specification words it. *)
Definition ols_trendline (values : list F) : list F :=
  let n := length values in
  match n with
  | O => []
  | _ =>
      if ols_denominator n =? 0 then fitted (of_int 0) (mean values) n
      else
        let slope := ols_slope values in
        fitted slope (ols_intercept slope values) n
  end.

End Reference.

(** The format the specification's wording selects: no decimals only
    strictly above 1000 in absolute value. *)
Definition currency_strictly_above (value : float) : string :=
  if (1000 <? abs value)%float
  then "$" ++ format_fixed true 0 (decode value)
  else "$" ++ format_fixed true 2 (decode value).

(** Parsers that refuse every cell: the errors below arise without them. *)
Definition refuse_date (text : string) : result datetime := Raise (ValueError text).
Definition refuse_float (text : string) : result float := Raise (ValueError text).

(** Sign of a decoded binary64 number: at least zero, at most zero. *)
Definition SFnonneg (x : spec_float) : bool := SFleb (S754_zero false) x.
Definition SFnonpos (x : spec_float) : bool := SFleb x (S754_zero false).

(** A number that carries the sign [sx] and is not a NaN. *)
Definition signed_like (sx : bool) (x : spec_float) : Prop :=
  match x with
  | S754_zero s | S754_infinity s | S754_finite s _ _ => s = sx
  | S754_nan => False
  end.

Unset Implicit Arguments.

(** * Properties *)

(** ** Results *)

Lemma mapM_total {A B : Type} (f : A -> result B) (g : A -> B) (l : list A) :
  (forall a, In a l -> f a = Ok (g a)) -> mapM f l = Ok (map g l).
Proof.
  induction l as [|a l IH]; intros Hf; simpl.
  - reflexivity.
  - rewrite (Hf a (or_introl eq_refl)). simpl.
    rewrite IH by (intros b Hb; apply Hf; right; exact Hb).
    reflexivity.
Qed.

(** ** int to binary64: the result is a valid number, zero only for 0 *)

Lemma digits2_pos_size (p : positive) : digits2_pos p = Pos.size p.
Proof. induction p as [p IH|p IH|]; cbn; congruence. Qed.

Lemma Zdigits2_log2 (m : Z) : 0 < m -> Zdigits2 m = Z.log2 m + 1.
Proof.
  destruct m as [|p|p]; try lia. intros _. cbn [Zdigits2].
  rewrite digits2_pos_size. destruct p as [p|p|]; cbn; lia.
Qed.

Lemma shr_1_div2 (mrs : shr_record) : 0 <= shr_m mrs -> shr_m (shr_1 mrs) = shr_m mrs / 2.
Proof.
  destruct mrs as [m r s]. cbn [shr_m]. intros Hm.
  destruct m as [|p|p]; [reflexivity| |lia].
  destruct p as [p|p|]; cbn [shr_1 shr_m].
  - rewrite Pos2Z.inj_xI. apply Z.div_unique with (r := 1); lia.
  - rewrite Pos2Z.inj_xO. apply Z.div_unique with (r := 0); lia.
  - reflexivity.
Qed.

Lemma pow2_xI (n : positive) : 2 ^ Zpos n~1 = 2 * 2 ^ Zpos n * 2 ^ Zpos n.
Proof.
  rewrite (Pos2Z.inj_xI n). replace (2 * Zpos n + 1) with (1 + Zpos n + Zpos n) by lia.
  do 2 (rewrite Z.pow_add_r by lia). reflexivity.
Qed.

Lemma pow2_xO (n : positive) : 2 ^ Zpos n~0 = 2 ^ Zpos n * 2 ^ Zpos n.
Proof.
  rewrite (Pos2Z.inj_xO n). replace (2 * Zpos n) with (Zpos n + Zpos n) by lia.
  rewrite Z.pow_add_r by lia. reflexivity.
Qed.

Lemma iter_pos_shr_m (n : positive) (mrs : shr_record) :
  0 <= shr_m mrs -> shr_m (iter_pos shr_1 n mrs) = shr_m mrs / 2 ^ Zpos n.
Proof.
  revert mrs. induction n as [n IH|n IH|]; intros mrs Hm; cbn [iter_pos].
  - assert (H1 : 0 <= shr_m (shr_1 mrs)) by (rewrite shr_1_div2 by exact Hm; apply Z.div_pos; lia).
    assert (H2 : 0 <= shr_m (iter_pos shr_1 n (shr_1 mrs))) by
      (rewrite IH by exact H1; apply Z.div_pos; lia).
    rewrite IH by exact H2. rewrite IH by exact H1. rewrite shr_1_div2 by exact Hm.
    rewrite !Z.div_div by lia. rewrite pow2_xI. f_equal. ring.
  - assert (H2 : 0 <= shr_m (iter_pos shr_1 n mrs)) by
      (rewrite IH by exact Hm; apply Z.div_pos; lia).
    rewrite IH by exact H2. rewrite IH by exact Hm.
    rewrite Z.div_div by lia. rewrite pow2_xO. reflexivity.
  - rewrite shr_1_div2 by exact Hm. reflexivity.
Qed.

Lemma fexp_mono (x y : Z) : x <= y -> fexp prec emax x <= fexp prec emax y.
Proof. unfold fexp. lia. Qed.

Lemma fexp_lt (x : Z) : emin < x -> fexp prec emax x < x.
Proof. unfold fexp, FloatOps.prec. lia. Qed.

(** [shr_fexp] on a mantissa that is not below its format exponent. *)
Lemma shr_fexp_canonical (m e : Z) (l : location) :
  0 < m ->
  e <= fexp prec emax (Zdigits2 m + e) ->
  emin < Zdigits2 m + e ->
  0 < shr_m (fst (shr_fexp prec emax m e l)) /\
  Zdigits2 (shr_m (fst (shr_fexp prec emax m e l))) + snd (shr_fexp prec emax m e l)
  = Zdigits2 m + e /\
  snd (shr_fexp prec emax m e l) = fexp prec emax (Zdigits2 m + e).
Proof.
  intros Hm He Hmin. unfold shr_fexp, shr.
  pose proof (fexp_lt _ Hmin) as Hlt.
  assert (H0 : shr_m (shr_record_of_loc m l) = m) by (destruct l as [|[]]; reflexivity).
  destruct (fexp prec emax (Zdigits2 m + e) - e) as [|n|n] eqn:En; cbn [fst snd]; try lia.
  - rewrite H0. repeat split; lia.
  - rewrite iter_pos_shr_m by (rewrite H0; lia). rewrite H0.
    rewrite (Zdigits2_log2 m Hm) in *.
    assert (Hn : Zpos n <= Z.log2 m) by lia.
    assert (Hpow : 2 ^ Zpos n <= m).
    { apply Z.le_trans with (2 ^ Z.log2 m); [apply Z.pow_le_mono_r; lia|].
      apply Z.log2_spec, Hm. }
    assert (Hq : 0 < m / 2 ^ Zpos n) by (apply Z.div_str_pos; lia).
    rewrite (Zdigits2_log2 _ Hq).
    assert (Hl : Z.log2 (m / 2 ^ Zpos n) = Z.log2 m - Zpos n).
    { rewrite <- Z.shiftr_div_pow2 by lia. rewrite Z.log2_shiftr by lia. lia. }
    rewrite Hl. repeat split; lia.
Qed.

Lemma round_nearest_even_bounds (m : Z) (l : location) :
  m <= round_nearest_even m l <= m + 1.
Proof. destruct l as [|[]]; cbn; try lia. destruct (Z.even m); lia. Qed.

Lemma Zdigits2_mono (m m' : Z) : 0 < m -> m <= m' -> Zdigits2 m <= Zdigits2 m'.
Proof.
  intros Hm Hle. rewrite !Zdigits2_log2 by lia.
  pose proof (Z.log2_le_mono m m' Hle). lia.
Qed.

(** Rounding a positive mantissa that is not too small for the format:
    the result is a valid number and not a zero. *)
Lemma binary_round_aux_valid_nonzero (sx : bool) (m e : Z) (l : location) :
  0 < m ->
  e <= fexp prec emax (Zdigits2 m + e) ->
  emin < Zdigits2 m + e ->
  valid_binary (binary_round_aux prec emax sx m e l) = true /\
  SFeqb (binary_round_aux prec emax sx m e l) (S754_zero false) = false.
Proof.
  intros Hm He Hmin. unfold binary_round_aux.
  destruct (shr_fexp_canonical m e l Hm He Hmin) as (H1 & H2 & H3).
  destruct (shr_fexp prec emax m e l) as [mrs' e'] eqn:E1. cbn [fst snd] in H1, H2, H3.
  set (m1 := round_nearest_even (shr_m mrs') (loc_of_shr_record mrs')).
  pose proof (round_nearest_even_bounds (shr_m mrs') (loc_of_shr_record mrs')) as Hb.
  fold m1 in Hb.
  assert (Hm1 : 0 < m1) by lia.
  pose proof (Zdigits2_mono (shr_m mrs') m1 H1 (proj1 Hb)) as Hd.
  assert (He1 : e' <= fexp prec emax (Zdigits2 m1 + e')).
  { apply Z.le_trans with (fexp prec emax (Zdigits2 m + e)); [lia|apply fexp_mono; lia]. }
  assert (Hmin1 : emin < Zdigits2 m1 + e') by lia.
  destruct (shr_fexp_canonical m1 e' loc_Exact Hm1 He1 Hmin1) as (G1 & G2 & G3).
  destruct (shr_fexp prec emax m1 e' loc_Exact) as [mrs'' e''] eqn:E2.
  cbn [fst snd] in G1, G2, G3.
  destruct (shr_m mrs'') as [|p|p] eqn:Ep; try lia.
  destruct (e'' <=? emax - prec) eqn:Eb; [|split; [reflexivity|destruct sx; reflexivity]].
  split; [|destruct sx; reflexivity].
  cbn [valid_binary]. unfold bounded, canonical_mantissa.
  rewrite Eb, andb_true_r. apply Z.eqb_eq.
  cbn [Zdigits2] in G2. rewrite G2. symmetry. exact G3.
Qed.

Lemma digits2_pos_iter_xO (m k : positive) :
  Zpos (digits2_pos (Pos.iter xO m k)) = Zpos (digits2_pos m) + Zpos k.
Proof.
  induction k as [|k IH] using Pos.peano_ind.
  - cbn. lia.
  - rewrite Pos.iter_succ. cbn [digits2_pos]. lia.
Qed.

Lemma binary_round_valid_nonzero (sx : bool) (m : positive) (e : Z) :
  emin < Zpos (digits2_pos m) + e ->
  valid_binary (binary_round prec emax sx m e) = true /\
  SFeqb (binary_round prec emax sx m e) (S754_zero false) = false.
Proof.
  intros Hmin. unfold binary_round, shl_align.
  destruct (fexp prec emax (Zpos (digits2_pos m) + e) - e) as [|d|d] eqn:Ed.
  - apply binary_round_aux_valid_nonzero; cbn [Zdigits2]; lia.
  - apply binary_round_aux_valid_nonzero; cbn [Zdigits2]; lia.
  - apply binary_round_aux_valid_nonzero; cbn [Zdigits2];
      rewrite ?digits2_pos_iter_xO; try lia.
    replace (Zpos (digits2_pos m) + Zpos d + fexp prec emax (Zpos (digits2_pos m) + e))
      with (Zpos (digits2_pos m) + e) by lia. lia.
Qed.

(** A non-zero int converts to a non-zero float. *)
Lemma float_of_int_nonzero (z : Z) : z <> 0 -> (float_of_int z =? 0)%float = false.
Proof.
  intros Hz. rewrite eqb_spec. unfold float_of_int.
  change (Prim2SF 0%float) with (S754_zero false).
  assert (Hround : forall sx p,
             SFeqb (Prim2SF (SF2Prim (binary_round prec emax sx p 0))) (S754_zero false)
             = false).
  { intros sx p.
    destruct (binary_round_valid_nonzero sx p 0) as [Hvalid Hnonzero]; [cbn; lia|].
    rewrite Prim2SF_SF2Prim by exact Hvalid. exact Hnonzero. }
  destruct z as [|p|p]; [contradiction| |]; apply Hround.
Qed.

(** ** Order on binary64 *)

Ltac sf_destruct :=
  repeat match goal with
         | x : spec_float |- _ => destruct x as [[]|[]| |[] ? ?]
         end.

Ltac cmp_cases :=
  repeat match goal with
         | H : context [Z.compare ?a ?b] |- _ =>
             destruct (Z.compare_spec a b); try discriminate H
         | |- context [Z.compare ?a ?b] => destruct (Z.compare_spec a b)
         | H : context [Pos.compare ?a ?b] |- _ =>
             destruct (Pos.compare_spec a b); try discriminate H
         | |- context [Pos.compare ?a ?b] => destruct (Pos.compare_spec a b)
         end.

Ltac sf_order :=
  unfold SFltb, SFleb, SFeqb;
  sf_destruct; cbn -[Z.compare Pos.compare_cont]; intros;
  try reflexivity; try discriminate;
  change (Pos.compare_cont Eq) with Pos.compare in *;
  cmp_cases; subst; cbn in *; try reflexivity; try discriminate; try lia.

Lemma SFltb_leb_trans (a b c : spec_float) :
  SFltb a b = true -> SFleb b c = true -> SFleb a c = true.
Proof. sf_order. Qed.

Lemma SFleb_ltb_trans (a b c : spec_float) :
  SFleb a b = true -> SFltb b c = true -> SFleb a c = true.
Proof. sf_order. Qed.

Lemma SF_squeezed_zero (a b : spec_float) :
  SFleb a (S754_zero false) = true -> SFleb (S754_zero false) b = true ->
  SFeqb a b = true ->
  (exists s, a = S754_zero s) /\ (exists s, b = S754_zero s).
Proof.
  unfold SFleb, SFeqb.
  destruct a as [[]|[]| |[] ? ?], b as [[]|[]| |[] ? ?]; cbn; intros;
    try discriminate; split; eexists; reflexivity.
Qed.

Lemma SFleb_abs_threshold (x : spec_float) (m : positive) (e : Z) :
  SFleb (S754_finite false m e) x || SFleb x (S754_finite true m e)
  = SFleb (S754_finite false m e) (SFabs x).
Proof.
  unfold SFleb.
  destruct x as [[]|[]| |[] ? ?]; cbn -[Z.compare Pos.compare_cont];
    try reflexivity;
    change (Pos.compare_cont Eq) with Pos.compare in *;
    cmp_cases; subst; cbn in *; try reflexivity; try discriminate; try lia.
Qed.

Lemma fltb_fleb_trans (x y z : float) :
  (x <? y)%float = true -> (y <=? z)%float = true -> (x <=? z)%float = true.
Proof. rewrite ltb_spec, !leb_spec. apply SFltb_leb_trans. Qed.

Lemma fleb_fltb_trans (x y z : float) :
  (x <=? y)%float = true -> (y <? z)%float = true -> (x <=? z)%float = true.
Proof. rewrite ltb_spec, !leb_spec. apply SFleb_ltb_trans. Qed.

(** A float that compares equal to zero is one of the two zeros. *)
Lemma float_zero_cases (x : float) :
  (exists s, Prim2SF x = S754_zero s) -> x = 0%float \/ x = (-0)%float.
Proof.
  intros [s Hs]. rewrite <- (SF2Prim_Prim2SF x), Hs.
  destruct s; [right|left]; reflexivity.
Qed.

Lemma float_squeezed_zero (lo hi : float) :
  (lo <=? 0)%float = true -> (0 <=? hi)%float = true -> (lo =? hi)%float = true ->
  (lo = 0%float \/ lo = (-0)%float) /\ (hi = 0%float \/ hi = (-0)%float).
Proof.
  rewrite !leb_spec, eqb_spec. change (Prim2SF 0%float) with (S754_zero false).
  intros H1 H2 H3. destruct (SF_squeezed_zero _ _ H1 H2 H3) as [Ha Hb].
  split; apply float_zero_cases; assumption.
Qed.

(** ** Signs on binary64: rounding never changes the sign *)

Lemma shr_1_nonneg (mrs : shr_record) : 0 <= shr_m mrs -> 0 <= shr_m (shr_1 mrs).
Proof.
  destruct mrs as [m r s]. cbn [shr_m]. intros Hm.
  destruct m as [|p|p]; [| |lia]; cbn; [lia|].
  destruct p; cbn; lia.
Qed.

Lemma iter_pos_nonneg (n : positive) (mrs : shr_record) :
  0 <= shr_m mrs -> 0 <= shr_m (iter_pos shr_1 n mrs).
Proof.
  revert mrs. induction n as [n IH|n IH|]; intros mrs Hm; cbn [iter_pos].
  - apply IH, IH, shr_1_nonneg, Hm.
  - apply IH, IH, Hm.
  - apply shr_1_nonneg, Hm.
Qed.

Lemma shr_fexp_nonneg (m e : Z) (l : location) :
  0 <= m -> 0 <= shr_m (fst (shr_fexp prec emax m e l)).
Proof.
  intros Hm. unfold shr_fexp, shr.
  assert (H0 : 0 <= shr_m (shr_record_of_loc m l)).
  { destruct l as [|[]]; exact Hm. }
  destruct (fexp prec emax (Zdigits2 m + e) - e) as [|n|n]; cbn [fst]; try exact H0.
  apply iter_pos_nonneg, H0.
Qed.

Lemma round_nearest_even_nonneg (m : Z) (l : location) :
  0 <= m -> 0 <= round_nearest_even m l.
Proof.
  intros Hm. destruct l as [|[]]; cbn; try exact Hm; [|lia].
  destruct (Z.even m); lia.
Qed.

Lemma binary_round_aux_sign (sx : bool) (m e : Z) (l : location) :
  0 <= m -> signed_like sx (binary_round_aux prec emax sx m e l).
Proof.
  intros Hm. unfold binary_round_aux.
  pose proof (shr_fexp_nonneg m e l Hm) as H1.
  destruct (shr_fexp prec emax m e l) as [mrs' e'] eqn:E1. cbn [fst] in H1.
  pose proof (shr_fexp_nonneg _ e' loc_Exact
                (round_nearest_even_nonneg _ (loc_of_shr_record mrs') H1)) as H2.
  destruct (shr_fexp prec emax _ e' loc_Exact) as [mrs'' e''] eqn:E2. cbn [fst] in H2.
  destruct (shr_m mrs'') as [|p|p]; [reflexivity| |lia].
  destruct (e'' <=? emax - prec); reflexivity.
Qed.

Lemma binary_round_sign (sx : bool) (m : positive) (e : Z) :
  signed_like sx (binary_round prec emax sx m e).
Proof.
  unfold binary_round.
  destruct (shl_align m e _) as [mz ez]. apply binary_round_aux_sign. lia.
Qed.

Lemma signed_nonneg x : signed_like false x -> SFnonneg x = true.
Proof. destruct x as [s|s| |s m e]; cbn; intros H; try subst; try contradiction; reflexivity. Qed.

Lemma signed_nonpos x : signed_like true x -> SFnonpos x = true.
Proof. destruct x as [s|s| |s m e]; cbn; intros H; try subst; try contradiction; reflexivity. Qed.

Lemma binary_normalize_nonneg (m e : Z) :
  0 <= m -> SFnonneg (binary_normalize prec emax m e false) = true.
Proof.
  intros Hm. destruct m as [|p|p]; [reflexivity| |lia].
  apply signed_nonneg, binary_round_sign.
Qed.

Lemma binary_normalize_nonpos (m e : Z) :
  m <= 0 -> SFnonpos (binary_normalize prec emax m e false) = true.
Proof.
  intros Hm. destruct m as [|p|p]; [reflexivity|lia|].
  apply signed_nonpos, binary_round_sign.
Qed.

Lemma SFsub_nonneg_nonpos (x y : spec_float) :
  SFnonneg x = true -> SFnonpos y = true -> SFnonneg (SF64sub x y) = true.
Proof.
  destruct x as [[]|[]| |[] mx ex], y as [[]|[]| |[] my ey]; cbn -[binary_normalize shl_align];
    intros Hx Hy; try discriminate; try reflexivity.
  apply binary_normalize_nonneg. cbn. lia.
Qed.

Lemma SFsub_nonpos_nonneg (x y : spec_float) :
  SFnonpos x = true -> SFnonneg y = true -> SFnonpos (SF64sub x y) = true.
Proof.
  destruct x as [[]|[]| |[] mx ex], y as [[]|[]| |[] my ey]; cbn -[binary_normalize shl_align];
    intros Hx Hy; try discriminate; try reflexivity.
  apply binary_normalize_nonpos. cbn. lia.
Qed.

Lemma SFadd_nonneg (x y : spec_float) :
  SFnonneg x = true -> SFnonneg y = true -> SFnonneg (SF64add x y) = true.
Proof.
  destruct x as [[]|[]| |[] mx ex], y as [[]|[]| |[] my ey]; cbn -[binary_normalize shl_align];
    intros Hx Hy; try discriminate; try reflexivity.
  apply binary_normalize_nonneg. cbn. lia.
Qed.

Lemma SFmul_nonneg_pos (x : spec_float) (m : positive) (e : Z) :
  SFnonneg x = true -> SFnonneg (SF64mul x (S754_finite false m e)) = true.
Proof.
  destruct x as [[]|[]| |[] mx ex]; cbn -[binary_round_aux];
    intros Hx; try discriminate; try reflexivity.
  apply signed_nonneg, binary_round_aux_sign. lia.
Qed.

Lemma fleb_zero_nonneg (x : float) : (0 <=? x)%float = SFnonneg (Prim2SF x).
Proof. rewrite leb_spec. reflexivity. Qed.

Lemma fleb_zero_nonpos (x : float) : (x <=? 0)%float = SFnonpos (Prim2SF x).
Proof. rewrite leb_spec. reflexivity. Qed.

Lemma float_sub_nonneg (x y : float) :
  (0 <=? x)%float = true -> (y <=? 0)%float = true -> (0 <=? x - y)%float = true.
Proof.
  rewrite !fleb_zero_nonneg, fleb_zero_nonpos, sub_spec. apply SFsub_nonneg_nonpos.
Qed.

Lemma float_sub_nonpos (x y : float) :
  (x <=? 0)%float = true -> (0 <=? y)%float = true -> (x - y <=? 0)%float = true.
Proof.
  rewrite !fleb_zero_nonpos, fleb_zero_nonneg, sub_spec. apply SFsub_nonpos_nonneg.
Qed.

Lemma float_add_nonneg (x y : float) :
  (0 <=? x)%float = true -> (0 <=? y)%float = true -> (0 <=? x + y)%float = true.
Proof. rewrite !fleb_zero_nonneg, add_spec. apply SFadd_nonneg. Qed.

Lemma float_mul_five_percent_nonneg (x : float) :
  (0 <=? x)%float = true -> (0 <=? x * @of_decimal float binary64 5 2)%float = true.
Proof.
  rewrite !fleb_zero_nonneg, mul_spec.
  change (Prim2SF (@of_decimal float binary64 5 2))
    with (S754_finite false 7205759403792794 (-57)).
  apply SFmul_nonneg_pos.
Qed.

(** ** compute_trendline *)

Lemma range_S (n : nat) : range (S n) = (range n ++ [Z.of_nat n])%list.
Proof. unfold range. rewrite seq_S, map_app. reflexivity. Qed.

Lemma range_length (n : nat) : length (range n) = n.
Proof. unfold range. rewrite length_map, length_seq. reflexivity. Qed.

Lemma sum_int_snoc (l : list Z) (x : Z) : sum_int (l ++ [x]) = sum_int l + x.
Proof. unfold sum_int. rewrite fold_left_app. reflexivity. Qed.

Lemma Sx_S (n : nat) : Sx (S n) = Sx n + Z.of_nat n.
Proof. unfold Sx. rewrite range_S. apply sum_int_snoc. Qed.

Lemma Sxx_S (n : nat) : Sxx (S n) = Sxx n + Z.of_nat n * Z.of_nat n.
Proof. unfold Sxx. rewrite range_S, map_app. apply sum_int_snoc. Qed.

(** Gauss: [Sx n = n (n - 1) / 2]. *)
Lemma Sx_closed (n : nat) : 2 * Sx n = Z.of_nat n * (Z.of_nat n - 1).
Proof.
  induction n as [|n IH]; [reflexivity|].
  rewrite Sx_S, Nat2Z.inj_succ. lia.
Qed.

(** [Sxx n = (n - 1) n (2 n - 1) / 6]. *)
Lemma Sxx_closed (n : nat) :
  6 * Sxx n = (Z.of_nat n - 1) * Z.of_nat n * (2 * Z.of_nat n - 1).
Proof.
  induction n as [|n IH]; [reflexivity|].
  rewrite Sxx_S, Nat2Z.inj_succ. nia.
Qed.

(** [n * Sxx - Sx^2 = n^2 (n^2 - 1) / 12]. *)
Lemma ols_denominator_closed (n : nat) :
  12 * ols_denominator n
  = Z.of_nat n * Z.of_nat n * (Z.of_nat n - 1) * (Z.of_nat n + 1).
Proof.
  unfold ols_denominator.
  pose proof (Sx_closed n) as Hx. pose proof (Sxx_closed n) as Hxx.
  set (k := Z.of_nat n) in *. set (a := Sx n) in *. set (b := Sxx n) in *.
  replace (12 * (k * b - a * a)) with (2 * k * (6 * b) - 3 * ((2 * a) * (2 * a))) by ring.
  rewrite Hx, Hxx. ring.
Qed.

Lemma ols_denominator_zero_iff (n : nat) : ols_denominator n = 0 <-> (n <= 1)%nat.
Proof.
  pose proof (ols_denominator_closed n) as Hd.
  split.
  - intros Hz. rewrite Hz in Hd.
    destruct (le_gt_dec n 1) as [Hle|Hgt]; [exact Hle|exfalso].
    assert (0 < Z.of_nat n * Z.of_nat n * (Z.of_nat n - 1) * (Z.of_nat n + 1)) by
      (repeat apply Z.mul_pos_pos; lia).
    lia.
  - intros Hle. destruct n as [|[|n]]; [reflexivity|reflexivity|lia].
Qed.

Section TrendlineFacts.
Context {F : Type} `{Num F}.

(** What the arithmetic must grant: a non-zero int converts to a non-zero
    number. *)
Hypothesis of_int_nonzero : forall z : Z, z <> 0 -> feqb (of_int z) (of_int 0) = false.

(** The source's computation, with its own fallback for the slope. *)
Lemma compute_trendline_unfold (values : list F) :
  values <> [] ->
  compute_trendline values
  = Ok (let n := length values in
        let slope := if ols_denominator n =? 0 then of_int 0 else ols_slope values in
        fitted slope (ols_intercept slope values) n).
Proof.
  intros Hne. unfold compute_trendline.
  assert (Hn : Z.of_nat (length values) <> 0).
  { destruct values; [contradiction|]. cbn [length]. lia. }
  rewrite (proj2 (Z.eqb_neq _ _) Hn). cbv zeta.
  fold (Sx (length values)) (Sxx (length values)) (Sy values) (Sxy values).
  fold (ols_denominator (length values)).
  unfold truediv. rewrite (of_int_nonzero _ Hn).
  destruct (ols_denominator (length values) =? 0) eqn:Hd; cbn [bind]; [reflexivity|].
  apply Z.eqb_neq in Hd. rewrite (of_int_nonzero _ Hd). reflexivity.
Qed.

End TrendlineFacts.

Lemma float_sub_zero (x : float) : (x - 0)%float = x.
Proof.
  apply Prim2SF_inj. rewrite sub_spec.
  change (Prim2SF 0%float) with (S754_zero false).
  destruct (Prim2SF x) as [s|s| |s m e]; try destruct s; reflexivity.
Qed.

(** C1: compute_trendline returns the empty sequence on the empty sequence;
    otherwise it returns the fitted values slope * i + intercept for i in
    0..n-1, with slope = (n Sxy - Sx Sy) / (n Sxx - Sx^2) and
    intercept = (Sy - slope Sx) / n; the denominator n Sxx - Sx^2 is zero
    exactly when n <= 1, and then the slope is 0 and the intercept is the
    mean of the values. *)
Theorem compute_trendline_spec (v : list float) :
  (ols_denominator (length v) = 0 <-> (length v <= 1)%nat) /\
  compute_trendline v = Ok (ols_trendline v) /\
  length (ols_trendline v) = length v.
Proof.
  split; [apply ols_denominator_zero_iff|]. split.
  - destruct v as [|y rest]; [reflexivity|].
    rewrite (@compute_trendline_unfold float binary64 float_of_int_nonzero) by discriminate.
    unfold ols_trendline. cbv zeta. cbn [length].
    destruct (ols_denominator (S (length rest)) =? 0) eqn:Hd; [|reflexivity].
    apply Z.eqb_eq, ols_denominator_zero_iff in Hd.
    destruct rest as [|y' rest]; [|cbn [length] in Hd; lia].
    cbn [length]. do 2 f_equal.
    unfold ols_intercept, mean. cbn [length].
    change (Sx 1) with 0. fold (Sy [y]).
    change (fmul (of_int 0) (of_int 0)) with 0%float.
    change (fsub (Sy [y]) 0%float) with (Sy [y] - 0)%float.
    rewrite float_sub_zero. reflexivity.
  - unfold ols_trendline, fitted. destruct v as [|y rest]; [reflexivity|].
    cbn [length]. destruct (ols_denominator (S (length rest)) =? 0);
      rewrite length_map, range_length; reflexivity.
Qed.

Example trendline_of_line :
  compute_trendline [1; 3; 5; 7; 9]%float = Ok [1; 3; 5; 7; 9]%float.
Proof. vm_compute. reflexivity. Qed.

(** ** compute_fluctuation *)

Section FluctuationFacts.
Context {F : Type} `{Num F}.

Lemma fluctuation_loop_map (pairs : list (F * F)) (acc : list F) :
  fluctuation_loop pairs acc
  = Ok (acc ++ map (fun pc => pct_change (fst pc) (snd pc)) pairs)%list.
Proof.
  revert acc. induction pairs as [|[prev curr] pairs IH]; intros acc; simpl.
  - rewrite app_nil_r. reflexivity.
  - unfold pct_change, truediv. simpl.
    destruct (feqb prev (of_int 0)) eqn:E; simpl;
      rewrite IH, <- app_assoc; reflexivity.
Qed.

Lemma compute_fluctuation_cons (first : F) (rest : list F) :
  compute_fluctuation (first :: rest)
  = Ok (of_int 0 :: map (fun pc => pct_change (fst pc) (snd pc))
                       (combine (first :: rest) rest)).
Proof. unfold compute_fluctuation. rewrite fluctuation_loop_map. reflexivity. Qed.

Lemma nth_error_consecutive (l : list F) (i : nat) (prev curr : F) :
  nth_error l i = Some prev -> nth_error l (S i) = Some curr ->
  nth_error (combine l (tl l)) i = Some (prev, curr).
Proof.
  revert i. induction l as [|a l IH]; intros i Hp Hc.
  - destruct i; discriminate.
  - destruct i as [|i]; simpl in *.
    + destruct l as [|b l]; [discriminate|]. simpl in *. congruence.
    + destruct l as [|b l]; [destruct i; discriminate|].
      apply (IH i Hp Hc).
Qed.

Lemma combine_tl_length (l : list F) : length (combine l (tl l)) = pred (length l).
Proof.
  destruct l as [|a l]; [reflexivity|].
  cbn [tl]. rewrite length_combine. cbn [length]. lia.
Qed.

End FluctuationFacts.

(** C2: on a non-empty sequence of floats, compute_fluctuation returns a
    sequence of the same length, whose first element is 0 and whose element
    at every later index i is ((v[i] - v[i-1]) / v[i-1]) * 100 when v[i-1] is
    not zero and 0 when v[i-1] is zero; on [100, 100, 50, 0, 10] it returns
    [0, 0, -50, -100, 0]. *)
Theorem compute_fluctuation_spec (v : list float) :
  v <> [] ->
  exists r : list float,
    compute_fluctuation v = Ok r /\
    length r = length v /\
    nth_error r 0 = Some 0%float /\
    (forall (i : nat) (prev curr : float),
        nth_error v i = Some prev -> nth_error v (S i) = Some curr ->
        nth_error r (S i)
        = Some (if (prev =? 0)%float then 0 else (curr - prev) / prev * 100)%float) /\
    compute_fluctuation [100; 100; 50; 0; 10]%float = Ok [0; 0; -50; -100; 0]%float.
Proof.
  intros Hne. destruct v as [|first rest]; [contradiction|].
  eexists. split; [apply compute_fluctuation_cons|].
  split; [|split; [|split]].
  - pose proof (combine_tl_length (first :: rest)) as Hl.
    cbn [tl] in Hl. cbn [length]. rewrite length_map, Hl. reflexivity.
  - reflexivity.
  - intros i prev curr Hp Hc.
    pose proof (nth_error_consecutive (first :: rest) i prev curr Hp Hc) as Hn.
    cbn [tl] in Hn. cbn [nth_error].
    rewrite nth_error_map, Hn. reflexivity.
  - vm_compute. reflexivity.
Qed.

Lemma compute_fluctuation_spec_witness :
  exists r : list float,
    compute_fluctuation [2; 3]%float = Ok r /\
    length r = 2%nat /\
    nth_error r 0 = Some 0%float /\
    (forall (i : nat) (prev curr : float),
        nth_error [2; 3]%float i = Some prev -> nth_error [2; 3]%float (S i) = Some curr ->
        nth_error r (S i)
        = Some (if (prev =? 0)%float then 0 else (curr - prev) / prev * 100)%float) /\
    compute_fluctuation [100; 100; 50; 0; 10]%float = Ok [0; 0; -50; -100; 0]%float.
Proof.
  apply (compute_fluctuation_spec [2; 3]%float). discriminate.
Defined.

(** ** compute_relative_change *)

Section RelativeChangeFacts.
Context {F : Type} `{Num F}.

Lemma compute_relative_change_cons (baseline : F) (rest : list F) :
  compute_relative_change (baseline :: rest)
  = Ok (map (fun value => if feqb baseline (of_int 0) then of_int 0
                          else pct_from baseline value) (baseline :: rest)).
Proof.
  unfold compute_relative_change.
  destruct (feqb baseline (of_int 0)) eqn:E; [reflexivity|].
  apply mapM_total. intros a _. unfold truediv, pct_from. rewrite E. reflexivity.
Qed.

End RelativeChangeFacts.

(** C3: on a non-empty sequence of floats whose first element is the
    baseline, compute_relative_change returns a sequence of the same length;
    every element is 0 when the baseline is zero, and otherwise the element
    at index i is ((v[i] - v[0]) / v[0]) * 100; on [0, 5, 10] it returns
    [0, 0, 0] and on [50, 50, 75, 25] it returns [0, 0, 50, -50]. *)
Theorem compute_relative_change_spec (v : list float) (baseline : float) :
  nth_error v 0 = Some baseline ->
  exists r : list float,
    compute_relative_change v = Ok r /\
    length r = length v /\
    (forall (i : nat) (x : float),
        nth_error v i = Some x ->
        nth_error r i
        = Some (if (baseline =? 0)%float then 0 else (x - baseline) / baseline * 100)%float) /\
    compute_relative_change [0; 5; 10]%float = Ok [0; 0; 0]%float /\
    compute_relative_change [50; 50; 75; 25]%float = Ok [0; 0; 50; -50]%float.
Proof.
  intros Hb. destruct v as [|first rest]; [discriminate|].
  injection Hb as ->.
  eexists. split; [apply compute_relative_change_cons|].
  split; [apply length_map|].
  split; [|split; vm_compute; reflexivity].
  intros i x Hx. rewrite nth_error_map, Hx. reflexivity.
Qed.

Lemma compute_relative_change_spec_witness :
  exists r : list float,
    compute_relative_change [4; 5]%float = Ok r /\
    length r = 2%nat /\
    (forall (i : nat) (x : float),
        nth_error [4; 5]%float i = Some x ->
        nth_error r i = Some (if (4 =? 0)%float then 0 else (x - 4) / 4 * 100)%float) /\
    compute_relative_change [0; 5; 10]%float = Ok [0; 0; 0]%float /\
    compute_relative_change [50; 50; 75; 25]%float = Ok [0; 0; 50; -50]%float.
Proof.
  apply (compute_relative_change_spec [4; 5]%float 4%float). reflexivity.
Defined.

(** ** The right scale *)

Lemma min_loop_le_zero (items : list float) (acc : float) :
  (acc <=? 0)%float = true -> (min_loop acc items <=? 0)%float = true.
Proof.
  revert acc. induction items as [|item items IH]; intros acc Hacc; cbn [min_loop].
  - exact Hacc.
  - apply IH. destruct (fltb item acc) eqn:E; [|exact Hacc].
    exact (fltb_fleb_trans _ _ _ E Hacc).
Qed.

Lemma max_loop_ge_zero (items : list float) (acc : float) :
  (0 <=? acc)%float = true -> (0 <=? max_loop acc items)%float = true.
Proof.
  revert acc. induction items as [|item items IH]; intros acc Hacc; cbn [max_loop].
  - exact Hacc.
  - apply IH. destruct (fltb acc item) eqn:E; [|exact Hacc].
    exact (fleb_fltb_trans _ _ _ Hacc E).
Qed.

(** The series [compute_fluctuation] returns starts with 0, so its least
    element is at most 0 and its greatest at least 0. *)
Lemma fluctuation_extremes (values : list float) :
  values <> [] ->
  exists fluct lo hi,
    compute_fluctuation values = Ok fluct /\
    py_min fluct = Ok lo /\ py_max fluct = Ok hi /\
    (lo <=? 0)%float = true /\ (0 <=? hi)%float = true.
Proof.
  intros Hne. destruct values as [|first rest]; [contradiction|].
  rewrite compute_fluctuation_cons.
  eexists _, _, _. split; [reflexivity|].
  cbn [py_min py_max]. split; [reflexivity|]. split; [reflexivity|].
  split; [apply min_loop_le_zero|apply max_loop_ge_zero]; reflexivity.
Qed.

Lemma fluct_loop_invariant (items : dict (list float)) :
  forall (acc : dict (list float)) (lo hi : float) fluctuation lo' hi',
    (lo <=? 0)%float = true -> (0 <=? hi)%float = true ->
    fluct_loop items acc lo hi = Ok (fluctuation, lo', hi') ->
    (lo' <=? 0)%float = true /\ (0 <=? hi')%float = true.
Proof.
  induction items as [|[asset values] items IH];
    intros acc lo hi fluctuation lo' hi' Hlo Hhi Hrun; cbn [fluct_loop] in Hrun.
  - injection Hrun as _ <- <-. split; assumption.
  - destruct (compute_fluctuation values) as [fluct|e] eqn:Hf; [|discriminate].
    cbn [bind] in Hrun.
    destruct values as [|first rest]; [cbn in Hf; injection Hf as <-; discriminate|].
    destruct (fluctuation_extremes (first :: rest)) as (fl & m & M & Hf' & Hm & HM & Hm0 & HM0);
      [discriminate|].
    rewrite Hf in Hf'. injection Hf' as <-.
    rewrite Hm, HM in Hrun. cbn [bind] in Hrun.
    apply IH in Hrun; [exact Hrun| |].
    + unfold py_min2. apply min_loop_le_zero, Hlo.
    + unfold py_max2. apply max_loop_ge_zero, Hhi.
Qed.

Lemma fluct_loop_total (items : dict (list float)) :
  (forall asset values, In (asset, values) items -> values <> []) ->
  forall (acc : dict (list float)) (lo hi : float),
  exists fluctuation lo' hi', fluct_loop items acc lo hi = Ok (fluctuation, lo', hi').
Proof.
  induction items as [|[asset values] items IH]; intros Hne acc lo hi; cbn [fluct_loop].
  - eexists _, _, _. reflexivity.
  - destruct (fluctuation_extremes values) as (fl & m & M & Hf & Hm & HM & _);
      [apply (Hne asset); left; reflexivity|].
    rewrite Hf. cbn [bind]. rewrite Hm, HM. cbn [bind].
    apply IH. intros a v Hin. apply (Hne a). right. exact Hin.
Qed.

Lemma fluct_nudge_spans_zero (lo hi : float) :
  (lo <=? 0)%float = true -> (0 <=? hi)%float = true ->
  (fst (fluct_nudge (lo, hi)) <=? 0)%float = true /\
  (0 <=? snd (fluct_nudge (lo, hi)))%float = true.
Proof.
  intros Hlo Hhi. unfold fluct_nudge.
  destruct (feqb lo hi); cbn [fst snd]; [|split; assumption].
  split; [apply float_sub_nonpos|apply float_add_nonneg]; auto.
Qed.

Lemma fluct_pad_spans_zero (lo hi : float) :
  (lo <=? 0)%float = true -> (0 <=? hi)%float = true ->
  (fst (fluct_pad (lo, hi)) <=? 0)%float = true /\
  (0 <=? snd (fluct_pad (lo, hi)))%float = true.
Proof.
  intros Hlo Hhi. unfold fluct_pad. cbn [fst snd].
  assert (Hpad : (0 <=? (hi - lo) * @of_decimal float binary64 5 2)%float = true)
    by (apply float_mul_five_percent_nonneg, float_sub_nonneg; assumption).
  split; [apply float_sub_nonpos|apply float_add_nonneg]; assumption.
Qed.

(** C10: when no price list is empty, the loop over the assets ends
    normally and the raw range of the right scale contains zero:
    fluct_min <= 0 <= fluct_max before the nudge and the padding; the domain
    they produce contains zero as well. *)
Theorem fluct_raw_contains_zero (items : dict (list float)) :
  (forall asset values, In (asset, values) items -> values <> []) ->
  exists fluctuation fluct_min fluct_max lo hi,
    fluct_raw items = Ok (fluctuation, fluct_min, fluct_max) /\
    (fluct_min <=? 0)%float = true /\ (0 <=? fluct_max)%float = true /\
    fluct_domain items = Ok (fluctuation, lo, hi) /\
    (lo <=? 0)%float = true /\ (0 <=? hi)%float = true.
Proof.
  intros Hne. unfold fluct_domain, fluct_raw.
  destruct (fluct_loop_total items Hne [] (of_int 0) (of_int 0)) as (d & m & M & Hrun).
  destruct (fluct_loop_invariant items [] (of_int 0) (of_int 0) d m M) as [Hm HM]; auto.
  destruct (fluct_nudge_spans_zero m M Hm HM) as [Hn1 Hn2].
  destruct (fluct_nudge (m, M)) as [m1 M1] eqn:En. cbn [fst snd] in Hn1, Hn2.
  destruct (fluct_pad_spans_zero m1 M1 Hn1 Hn2) as [Hp1 Hp2].
  rewrite Hrun. cbn [bind]. rewrite En.
  destruct (fluct_pad (m1, M1)) as [m2 M2]. cbn [fst snd] in Hp1, Hp2.
  exists d, m, M, m2, M2. auto 6.
Qed.

Lemma fluct_raw_contains_zero_witness :
  exists fluctuation fluct_min fluct_max lo hi,
    fluct_raw [("ABTC", [100; 110; 90]%float); ("BTC", [200; 190; 210]%float)]
    = Ok (fluctuation, fluct_min, fluct_max) /\
    (fluct_min <=? 0)%float = true /\ (0 <=? fluct_max)%float = true /\
    fluct_domain [("ABTC", [100; 110; 90]%float); ("BTC", [200; 190; 210]%float)]
    = Ok (fluctuation, lo, hi) /\
    (lo <=? 0)%float = true /\ (0 <=? hi)%float = true.
Proof.
  apply (fluct_raw_contains_zero
           [("ABTC", [100; 110; 90]%float); ("BTC", [200; 190; 210]%float)]).
  intros asset values [Heq|[Heq|[]]]; injection Heq as _ <-; discriminate.
Defined.

Lemma fluct_raw_bounds (items : dict (list float)) fluctuation (lo hi : float) :
  fluct_raw items = Ok (fluctuation, lo, hi) ->
  (lo <=? 0)%float = true /\ (0 <=? hi)%float = true.
Proof.
  intros Hrun.
  apply (fluct_loop_invariant items [] (of_int 0) (of_int 0) fluctuation lo hi); auto.
Qed.



(** ** The left scale *)


Section ExactOrder.
Local Open Scope Q_scope.







End ExactOrder.




(** ** Date labels *)

Lemma range_step_In (stop step i : Z) :
  0 < step ->
  In i (range_step stop step) <-> 0 <= i < stop /\ i mod step = 0.
Proof.
  intros Hstep. unfold range_step. rewrite in_map_iff. split.
  - intros (k & <- & Hk). apply in_seq in Hk. destruct Hk as [_ Hk]. cbn in Hk.
    assert (Hlt : Z.of_nat k < (stop + step - 1) / step) by lia.
    assert (Z.of_nat k * step < stop).
    { destruct (Z_lt_le_dec (Z.of_nat k * step) stop) as [Hl|Hg]; [exact Hl|exfalso].
      assert ((stop + step - 1) / step <= Z.of_nat k); [|lia].
      apply Z.lt_succ_r, Z.div_lt_upper_bound; [exact Hstep|]. nia. }
    split; [nia|]. apply Z.mod_mul. lia.
  - intros [[H0 Hlt] Hmod].
    apply Z.mod_divide in Hmod; [|lia]. destruct Hmod as [q ->].
    assert (0 <= q) by nia.
    exists (Z.to_nat q). split; [rewrite Z2Nat.id by lia; reflexivity|].
    apply in_seq. split; [lia|]. cbn.
    apply Z2Nat.inj_lt; [lia| |].
    + apply Z.div_pos; nia.
    + apply Z.div_le_lower_bound with (a := stop + step - 1) (b := step) (q := q + 1) in Hstep as Hd;
        [lia|nia].
  Qed.

Lemma label_step_stride (count : Z) :
  6 <= count -> label_step count = Z.max 1 (count / 5).
Proof.
  intros Hc. unfold label_step. rewrite Z.min_l by lia. reflexivity.
Qed.

Lemma label_step_pos (count : Z) : 0 < label_step count.
Proof. unfold label_step. destruct (1 <? Z.min 6 count); lia. Qed.

(** What the labelled indices are, for the step the code computes. *)
Lemma label_indices_In (count i : Z) :
  1 <= count ->
  In i (label_indices count)
  <-> (0 <= i < count /\ i mod label_step count = 0) \/ i = count - 1.
Proof.
  intros Hc. unfold label_indices. cbv zeta.
  pose proof (label_step_pos count) as Hs.
  rewrite in_app_iff, (range_step_In count (label_step count) i Hs).
  destruct ((count - 1) mod label_step count =? 0) eqn:E; cbn [negb In].
  - apply Z.eqb_eq in E. split.
    + intros [Hin|[]]. left. exact Hin.
    + intros [Hin| ->]; left; [exact Hin|]. split; [lia|exact E].
  - split.
    + intros [Hin|[<-|[]]]; [left; exact Hin|right; reflexivity].
    + intros [Hin| ->]; [left; exact Hin|right; left; reflexivity].
Qed.

Lemma mapM_app {A B : Type} (f : A -> result B) (l1 l2 : list A) :
  mapM f (l1 ++ l2)
  = (bs1 <- mapM f l1 ;; bs2 <- mapM f l2 ;; Ok (bs1 ++ bs2)%list).
Proof.
  induction l1 as [|a l1 IH]; cbn [mapM app].
  - destruct (mapM f l2); reflexivity.
  - destruct (f a) as [b|e]; [|reflexivity]. cbn [bind]. rewrite IH.
    destruct (mapM f l1) as [bs1|e]; [|reflexivity]. cbn [bind].
    destruct (mapM f l2) as [bs2|e]; reflexivity.
Qed.

Lemma list_last_get {A : Type} (l : list A) :
  l <> [] -> list_last l = list_get l (Z.of_nat (length l) - 1).
Proof.
  intros Hne. destruct (exists_last Hne) as (front & a & ->).
  unfold list_last, list_get. rewrite rev_app_distr. cbn [rev app].
  rewrite length_app. cbn [length].
  replace (Z.to_nat (Z.of_nat (length front + 1) - 1)) with (length front) by lia.
  rewrite nth_error_app2 by lia. rewrite Nat.sub_diag. reflexivity.
Qed.

Lemma mapM_succeeds {A B : Type} (f : A -> result B) (l : list A) :
  (forall a, In a l -> exists b, f a = Ok b) ->
  exists bs, mapM f l = Ok bs /\ length bs = length l.
Proof.
  induction l as [|a l IH]; intros Hf; cbn [mapM].
  - exists []. split; reflexivity.
  - destruct (Hf a (or_introl eq_refl)) as [b ->].
    destruct IH as (bs & -> & Hlen); [intros a' Ha'; apply Hf; right; exact Ha'|].
    exists (b :: bs). split; [reflexivity|]. cbn [length]. rewrite Hlen. reflexivity.
Qed.

Lemma list_get_in_range {A : Type} (l : list A) (i : Z) :
  0 <= i < Z.of_nat (length l) -> exists a, list_get l i = Ok a.
Proof.
  intros Hi. unfold list_get.
  destruct (nth_error l (Z.to_nat i)) as [a|] eqn:E; [exists a; reflexivity|].
  apply nth_error_None in E. lia.
Qed.

Lemma float_truediv_int (x : float) (z : Z) :
  z <> 0 -> truediv x (of_int z) = Ok (x / float_of_int z)%float.
Proof.
  intros Hz. unfold truediv. cbn [feqb of_int binary64].
  change (float_of_int 0) with 0%float.
  rewrite (float_of_int_nonzero z Hz). reflexivity.
Qed.

(** The x positions of the dates: one per date. *)
Lemma linspace_float_length (start stop count : Z) :
  0 <= count ->
  exists xs : list float,
    _linspace start stop count = Ok xs /\ length xs = Z.to_nat count.
Proof.
  intros Hc. unfold _linspace.
  destruct (count =? 1) eqn:E1.
  - apply Z.eqb_eq in E1. subst count. eexists. split; reflexivity.
  - apply Z.eqb_neq in E1.
    assert (Hnz : count - 1 <> 0) by lia.
    rewrite (float_truediv_int _ _ Hnz). cbn [bind].
    eexists. split; [reflexivity|]. rewrite length_map. apply range_length.
Qed.


Lemma x_axis_labels_by_index (series_dates : list datetime) (xs : list float) :
  let count := Z.of_nat (length series_dates) in
  1 <= count ->
  length xs = length series_dates ->
  x_axis_labels series_dates xs count
  = mapM (date_label series_dates xs) (label_indices count).
Proof.
  intros count Hc Hlen.
  unfold x_axis_labels, label_indices. cbv zeta. rewrite mapM_app.
  destruct (mapM (date_label series_dates xs) (range_step count (label_step count)))
    as [stride_labels|e]; [|reflexivity]. cbn [bind].
  destruct ((count - 1) mod label_step count =? 0); cbn [negb mapM bind]; [reflexivity|].
  unfold date_label.
  assert (Hd : series_dates <> []) by (intros ->; subst count; cbn in Hc; lia).
  assert (Hx : xs <> []) by (intros ->; cbn in Hlen; apply Hd, length_zero_iff_nil; auto).
  rewrite (list_last_get xs Hx), (list_last_get series_dates Hd), Hlen. fold count.
  destruct (list_get_in_range series_dates (count - 1)) as [d ->]; [subst count; lia|].
  destruct (list_get_in_range xs (count - 1)) as [x ->]; [subst count; lia|].
  reflexivity.
Qed.



(** ** _format_currency *)

Lemma float_abs_threshold (value : float) :
  (1000 <=? value)%float || (value <=? -1000)%float = (1000 <=? abs value)%float.
Proof.
  rewrite !leb_spec, abs_spec.
  change (Prim2SF 1000%float) with (S754_finite false 8796093022208000 (-43)).
  change (Prim2SF (-1000)%float) with (S754_finite true 8796093022208000 (-43)).
  apply SFleb_abs_threshold.
Qed.

(** C8, as the code has it: _format_currency prints no decimals, with
    thousands separators, exactly when the absolute value is at least 1000
    (1000 and -1000 included), and two decimals with thousands separators
    otherwise. *)
Theorem format_currency_threshold (value : float) :
  _format_currency value
  = if (1000 <=? abs value)%float
    then "$" ++ format_fixed true 0 (decode value)
    else "$" ++ format_fixed true 2 (decode value).
Proof.
  unfold _format_currency. cbn [fleb binary64 of_int].
  change (float_of_int 1000) with 1000%float.
  change (float_of_int (-1000)) with (-1000)%float.
  rewrite float_abs_threshold. reflexivity.
Qed.

(** C8 as worded fails at 1000: the absolute value is not strictly above
    1000, yet the text has no decimals. *)
Lemma format_currency_at_1000 :
  (1000 <? abs 1000)%float = false /\
  _format_currency 1000%float = "$1,000" /\
  currency_strictly_above 1000%float = "$1,000.00" /\
  _format_currency 1000%float <> currency_strictly_above 1000%float.
Proof.
  repeat split; try (vm_compute; reflexivity).
  vm_compute. discriminate.
Qed.

Example format_currency_examples :
  _format_currency 1234%float = "$1,234" /\
  _format_currency 999.5%float = "$999.50" /\
  _format_currency (-1000)%float = "$-1,000".
Proof. repeat split; vm_compute; reflexivity. Qed.

(** ** Determinism of the rendering *)


(** ** load_price_data *)

Section LoadingFacts.
Context {F : Type}.
Variable fromisoformat : string -> result datetime.
Variable float_of_str : string -> result F.

Lemma read_rows_blank (fields : list string) (records : csv_file) (taken : nat)
      (st : list datetime * dict (list F)) :
  Forall (fun record => record = []) records ->
  read_rows fromisoformat float_of_str fields records taken st
  = (Ok st, (taken + length records)%nat).
Proof.
  intros Hblank. revert taken.
  induction Hblank as [|record records -> _ IH]; intros taken; cbn [read_rows length].
  - rewrite Nat.add_0_r. reflexivity.
  - rewrite IH. f_equal. lia.
Qed.

End LoadingFacts.

(** C5, as the code has it: when the header lacks the date column, or has
    it and lacks ABTC or BTC, load_price_data raises a ValueError whose
    message reports the missing column, without taking a single data record
    from the file and without parsing a cell; when the header has the three
    columns and no record follows it but empty ones, it raises the
    ValueError "No rows found in price CSV". *)
Theorem load_price_data_errors
        (F : Type) (fromisoformat : string -> result datetime)
        (float_of_str : string -> result F) (file : csv_file) :
  let fields := fieldnames_or_empty file in
  let missing := filter (fun asset => negb (contains fields asset)) ASSETS in
  (contains fields "date" = false ->
   load_price_data fromisoformat float_of_str file
   = (Raise (ValueError "CSV must contain a 'date' column"), O)) /\
  (contains fields "date" = true ->
   contains fields "ABTC" = false \/ contains fields "BTC" = false ->
   (missing = ["ABTC"] \/ missing = ["BTC"] \/ missing = ["ABTC"; "BTC"]) /\
   load_price_data fromisoformat float_of_str file
   = (Raise (ValueError ("CSV is missing expected asset columns: "
                           ++ String.concat ", " missing)), O)) /\
  (contains fields "date" = true ->
   contains fields "ABTC" = true -> contains fields "BTC" = true ->
   Forall (fun record => record = []) (tl file) ->
   fst (load_price_data fromisoformat float_of_str file)
   = Raise (ValueError "No rows found in price CSV")).
Proof.
  intros fields missing. unfold load_price_data. fold fields. cbv zeta. fold missing.
  split; [|split].
  - intros ->. reflexivity.
  - intros -> Hmiss. cbn [negb].
    subst missing. cbn [filter ASSETS].
    destruct (contains fields "ABTC"), (contains fields "BTC"); cbn [negb];
      try (destruct Hmiss; discriminate); split; auto.
  - intros -> Ha Hb Hblank. cbn [negb].
    subst missing. cbn [filter ASSETS]. rewrite Ha, Hb. cbn [negb].
    rewrite (read_rows_blank fromisoformat float_of_str) by exact Hblank.
    reflexivity.
Qed.

Lemma load_price_data_errors_witness :
  load_price_data refuse_date refuse_float [["ABTC"; "BTC"]; ["1"; "2"]]
  = (Raise (ValueError "CSV must contain a 'date' column"), O) /\
  load_price_data refuse_date refuse_float [["date"; "BTC"]; ["2024-01-01"; "2"]]
  = (Raise (ValueError "CSV is missing expected asset columns: ABTC"), O) /\
  fst (load_price_data refuse_date refuse_float [["date"; "ABTC"; "BTC"]])
  = Raise (ValueError "No rows found in price CSV").
Proof.
  split; [|split].
  - apply (load_price_data_errors float refuse_date refuse_float
             [["ABTC"; "BTC"]; ["1"; "2"]]). reflexivity.
  - apply (load_price_data_errors float refuse_date refuse_float
             [["date"; "BTC"]; ["2024-01-01"; "2"]]); [reflexivity|left; reflexivity].
  - apply (load_price_data_errors float refuse_date refuse_float
             [["date"; "ABTC"; "BTC"]]); try reflexivity. constructor.
Defined.

(** C5 as worded fails: the exception raised for a missing column is not of
    a class FormatError and the one raised for a file without rows is not of
    a class DataError; both are of the one class ValueError, so their class
    does not tell the two failures apart. *)
Lemma load_price_data_raises_ValueError :
  exists e_column e_rows : exn,
    fst (load_price_data refuse_date refuse_float [["ABTC"; "BTC"]; ["1"; "2"]])
    = Raise e_column /\
    fst (load_price_data refuse_date refuse_float [["date"; "ABTC"; "BTC"]])
    = Raise e_rows /\
    exn_class e_column = "ValueError" /\ exn_class e_column <> "FormatError" /\
    exn_class e_rows = "ValueError" /\ exn_class e_rows <> "DataError" /\
    exn_class e_column = exn_class e_rows.
Proof.
  eexists _, _. split; [reflexivity|]. split; [reflexivity|].
  repeat split; discriminate.
Qed.

(** * The program as a whole *)

(** ** Differences on binary64: zero only between equal numbers *)

Lemma canonical_exponent_ge_emin (m : positive) (e : Z) :
  canonical_mantissa prec emax m e = true -> emin <= e.
Proof.
  unfold canonical_mantissa, fexp. intros H. apply Z.eqb_eq in H. lia.
Qed.

Lemma shl_align_fst (m : positive) (e e' : Z) :
  e' <= e -> Zpos (fst (shl_align m e e')) = Zpos m * 2 ^ (e - e').
Proof.
  intros Hle. unfold shl_align.
  destruct (e' - e) as [|d|d] eqn:Ed; cbn [fst].
  - replace (e - e') with 0 by lia. rewrite Z.pow_0_r. lia.
  - lia.
  - replace (e - e') with (Zpos d) by lia. clear Ed Hle.
    induction d as [|d IH] using Pos.peano_ind.
    + cbn. lia.
    + rewrite Pos.iter_succ, Pos2Z.inj_succ, Z.pow_succ_r by lia.
      rewrite (Pos2Z.inj_xO (Pos.iter xO m d)), IH. ring.
Qed.

(** Two valid finite numbers whose mantissas agree once aligned are the
    same number. *)
Lemma aligned_equal (mx my : positive) (ex ey : Z) :
  canonical_mantissa prec emax mx ex = true ->
  canonical_mantissa prec emax my ey = true ->
  Zpos (fst (shl_align mx ex (Z.min ex ey))) = Zpos (fst (shl_align my ey (Z.min ex ey))) ->
  ex = ey /\ mx = my.
Proof.
  intros Hx Hy Heq.
  rewrite !shl_align_fst in Heq by lia.
  unfold canonical_mantissa in Hx, Hy. apply Z.eqb_eq in Hx, Hy.
  assert (Hdig : Zpos (digits2_pos mx) + ex = Zpos (digits2_pos my) + ey).
  { pose proof (Zdigits2_log2 (Zpos mx) eq_refl) as Dx.
    pose proof (Zdigits2_log2 (Zpos my) eq_refl) as Dy.
    cbn [Zdigits2] in Dx, Dy. rewrite Dx, Dy.
    assert (Hl : Z.log2 (Zpos mx * 2 ^ (ex - Z.min ex ey))
                 = Z.log2 (Zpos my * 2 ^ (ey - Z.min ex ey))) by (rewrite Heq; reflexivity).
    rewrite !Z.log2_mul_pow2 in Hl by lia. lia. }
  assert (He : ex = ey) by (rewrite <- Hx, <- Hy, Hdig; reflexivity).
  split; [exact He|]. subst ey. rewrite Z.min_id, Z.sub_diag, Z.pow_0_r in Heq. lia.
Qed.

Lemma SFsub_zero_eq (x y : spec_float) :
  valid_binary x = true -> valid_binary y = true ->
  SFeqb (SF64sub x y) (S754_zero false) = true -> SFeqb x y = true.
Proof.
  destruct x as [sx|sx| |sx mx ex], y as [sy|sy| |sy my ey];
    try solve [intros _ _; try destruct sx; try destruct sy; cbn;
               intros; (reflexivity || discriminate)].
  cbn [valid_binary]. unfold bounded. intros Hx Hy.
  apply andb_prop in Hx, Hy. destruct Hx as [Hx _], Hy as [Hy _].
  unfold SF64sub, SFsub.
  pose proof (canonical_exponent_ge_emin _ _ Hx) as Hex.
  pose proof (canonical_exponent_ge_emin _ _ Hy) as Hey.
  set (ax := Zpos (fst (shl_align mx ex (Z.min ex ey)))).
  set (ay := Zpos (fst (shl_align my ey (Z.min ex ey)))).
  assert (Hax : 0 < ax) by reflexivity. assert (Hay : 0 < ay) by reflexivity.
  destruct (cond_Zopp sx ax - cond_Zopp sy ay) as [|d|d] eqn:Ed; cbn [binary_normalize].
  - intros _.
    assert (Hs : sx = sy /\ ax = ay) by (destruct sx, sy; unfold cond_Zopp in Ed; split; (reflexivity || lia)).
    destruct Hs as [-> Ha]. unfold ax, ay in Ha.
    destruct (aligned_equal mx my ex ey Hx Hy Ha) as [-> ->].
    unfold SFeqb. cbn. rewrite Z.compare_refl, Pos.compare_cont_refl.
    destruct sy; reflexivity.
  - destruct (binary_round_valid_nonzero false d (Z.min ex ey)) as [_ Hn]; [|congruence].
    pose proof (Pos2Z.is_pos (digits2_pos d)). lia.
  - destruct (binary_round_valid_nonzero true d (Z.min ex ey)) as [_ Hn]; [|congruence].
    pose proof (Pos2Z.is_pos (digits2_pos d)). lia.
Qed.

Lemma float_sub_nonzero (x y : float) :
  (x =? y)%float = false -> (x - y =? 0)%float = false.
Proof.
  intros Hne. destruct (x - y =? 0)%float eqn:E; [|reflexivity].
  rewrite eqb_spec, sub_spec in E. change (Prim2SF 0%float) with (S754_zero false) in E.
  apply SFsub_zero_eq in E; try apply Prim2SF_valid.
  rewrite eqb_spec in Hne. congruence.
Qed.

Lemma float_sub_zero_eq (x y : float) :
  (x - y =? 0)%float = true -> (x =? y)%float = true.
Proof.
  intros E. destruct (x =? y)%float eqn:Hxy; [reflexivity|].
  rewrite (float_sub_nonzero x y Hxy) in E. discriminate.
Qed.

Lemma SFadd_zero_r (x : spec_float) (s : bool) :
  SFeqb (SF64add x (S754_zero s)) (S754_zero false) = true ->
  SFeqb x (S754_zero false) = true.
Proof.
  destruct x as [[]|[]| |[] m e], s; cbn; intros; try discriminate; reflexivity.
Qed.

Lemma float_add_zero_r (x p : float) :
  p = 0%float \/ p = (-0)%float -> (x + p =? 0)%float = true -> (x =? 0)%float = true.
Proof.
  intros Hp. rewrite !eqb_spec, add_spec.
  change (Prim2SF 0%float) with (S754_zero false).
  destruct Hp as [-> | ->].
  - change (Prim2SF 0%float) with (S754_zero false). apply SFadd_zero_r.
  - change (Prim2SF (-0)%float) with (S754_zero true). apply SFadd_zero_r.
Qed.

Lemma float_zeros_equal (x y : float) :
  x = 0%float \/ x = (-0)%float -> y = 0%float \/ y = (-0)%float -> (x =? y)%float = true.
Proof. intros [-> | ->] [-> | ->]; reflexivity. Qed.

Lemma float_eqb_zero_cases (x : float) :
  (x =? 0)%float = true -> x = 0%float \/ x = (-0)%float.
Proof.
  rewrite eqb_spec. change (Prim2SF 0%float) with (S754_zero false). intros E.
  apply float_zero_cases. unfold SFeqb in E.
  destruct (Prim2SF x) as [s|s| |s m e]; cbn in E; try discriminate.
  - exists s. reflexivity.
  - destruct s; discriminate.
  - destruct s; discriminate.
Qed.

Lemma float_eqb_sym_zero (lo hi : float) :
  (lo <=? 0)%float = true -> (0 <=? hi)%float = true -> (hi =? lo)%float = true ->
  (lo =? hi)%float = true.
Proof.
  rewrite !leb_spec, !eqb_spec. change (Prim2SF 0%float) with (S754_zero false).
  unfold SFleb, SFeqb.
  destruct (Prim2SF lo) as [[]|[]| |[] ? ?], (Prim2SF hi) as [[]|[]| |[] ? ?]; cbn; intros;
    try discriminate; reflexivity.
Qed.

(** The span of the right scale is never zero: the padded ends can only
    coincide at zero, and then the raw ends were equal and have been moved
    apart by the nudge. *)
Lemma fluct_span_nonzero (lo hi : float) :
  (lo <=? 0)%float = true -> (0 <=? hi)%float = true ->
  (snd (fluct_pad (fluct_nudge (lo, hi))) - fst (fluct_pad (fluct_nudge (lo, hi))) =? 0)%float
  = false.
Proof.
  intros Hlo Hhi.
  destruct (lo =? hi)%float eqn:Heq.
  - destruct (float_squeezed_zero lo hi Hlo Hhi Heq) as [[-> | ->] [-> | ->]];
      vm_compute; reflexivity.
  - unfold fluct_nudge. cbn [feqb binary64]. rewrite Heq.
    unfold fluct_pad. cbn [fst snd fsub fadd fmul binary64].
    set (p := ((hi - lo) * @of_decimal float binary64 5 2)%float).
    assert (Hp : (0 <=? p)%float = true)
      by (apply float_mul_five_percent_nonneg, float_sub_nonneg; assumption).
    destruct (hi + p - (lo - p) =? 0)%float eqn:E; [exfalso|reflexivity].
    apply float_sub_zero_eq in E.
    assert (Hlo' : (lo - p <=? 0)%float = true) by (apply float_sub_nonpos; assumption).
    assert (Hhi' : (0 <=? hi + p)%float = true) by (apply float_add_nonneg; assumption).
    assert (E' : (lo - p =? hi + p)%float = true)
      by (apply float_eqb_sym_zero; assumption).
    destruct (float_squeezed_zero _ _ Hlo' Hhi' E') as [Hz1 Hz2].
    assert (Hlp : (lo =? p)%float = true).
    { apply float_sub_zero_eq. destruct Hz1 as [-> | ->]; reflexivity. }
    destruct (float_squeezed_zero _ _ Hlo Hp Hlp) as [Hlz Hpz].
    assert (Hhz : (hi =? 0)%float = true).
    { apply (float_add_zero_r hi p Hpz). destruct Hz2 as [-> | ->]; reflexivity. }
    apply float_eqb_zero_cases in Hhz.
    rewrite (float_zeros_equal lo hi Hlz Hhz) in Heq. discriminate.
Qed.

(** ** Dictionaries *)

Lemma dict_get_cases {V : Type} (d : dict V) (key : string) :
  (exists v, dict_get d key = Ok v /\ In (key, v) d) \/ dict_get d key = Raise (KeyError key).
Proof.
  induction d as [|[k w] d IH]; cbn [dict_get].
  - right. reflexivity.
  - destruct (String.eqb k key) eqn:E.
    + apply String.eqb_eq in E. subst k. left. exists w. split; [reflexivity|left; reflexivity].
    + destruct IH as [(v & Hv & Hin)|Hmiss]; [left|right; exact Hmiss].
      exists v. split; [exact Hv|right; exact Hin].
Qed.

Lemma dict_get_set {V : Type} (d : dict V) (key key' : string) (v : V) :
  dict_get (dict_set d key v) key'
  = if String.eqb key key' then Ok v else dict_get d key'.
Proof.
  induction d as [|[k w] d IH]; cbn [dict_set dict_get].
  - destruct (String.eqb key key'); reflexivity.
  - destruct (String.eqb k key) eqn:E; cbn [dict_get].
    + apply String.eqb_eq in E. subst k.
      destruct (String.eqb key key'); reflexivity.
    + rewrite IH. destruct (String.eqb k key') eqn:E'; [|reflexivity].
      apply String.eqb_eq in E'. subst k. rewrite String.eqb_sym, E. reflexivity.
Qed.

(** Two dicts with the same keys in the same order, and related values. *)
Lemma dict_get_Forall2 {V W : Type} (R : V -> W -> Prop) (d : dict V) (d' : dict W)
      (key : string) :
  Forall2 (fun av bv => fst av = fst bv /\ R (snd av) (snd bv)) d d' ->
  match dict_get d key with
  | Ok v => exists v', dict_get d' key = Ok v' /\ R v v'
  | Raise e => dict_get d' key = Raise e
  end.
Proof.
  induction 1 as [|[k v] [k' v'] d d' [Hk HR] _ IH]; cbn [dict_get].
  - reflexivity.
  - cbn [fst snd] in Hk, HR. subst k'.
    destruct (String.eqb k key); [exists v'; split; [reflexivity|exact HR]|exact IH].
Qed.

Lemma mapM_Forall2 {A B : Type} (f : A -> result B) (R : A -> B -> Prop) (l : list A) :
  (forall a, In a l -> exists b, f a = Ok b /\ R a b) ->
  exists bs, mapM f l = Ok bs /\ Forall2 R l bs.
Proof.
  induction l as [|a l IH]; intros Hf; cbn [mapM].
  - exists []. split; [reflexivity|constructor].
  - destruct (Hf a (or_introl eq_refl)) as (b & -> & Hb).
    destruct IH as (bs & -> & Hbs); [intros a' Ha'; apply Hf; right; exact Ha'|].
    exists (b :: bs). split; [reflexivity|constructor; assumption].
Qed.

(** ** The series computed from the prices *)

Section SeriesFacts.
Context {F : Type} `{Num F}.

Lemma compute_relative_change_length (values : list F) :
  exists rel, compute_relative_change values = Ok rel /\ length rel = length values.
Proof.
  destruct values as [|baseline rest]; [exists []; split; reflexivity|].
  rewrite compute_relative_change_cons. eexists. split; [reflexivity|apply length_map].
Qed.

Lemma compute_fluctuation_length (values : list F) :
  exists fluct, compute_fluctuation values = Ok fluct /\ length fluct = length values.
Proof.
  destruct values as [|first rest]; [exists []; split; reflexivity|].
  rewrite compute_fluctuation_cons. eexists. split; [reflexivity|].
  cbn [length]. rewrite length_map, length_combine. cbn [length]. lia.
Qed.

(** The dict comprehension of lines 158-160 keeps the keys and the
    lengths. *)
Lemma relative_prices_of_keys (items : dict (list F)) :
  exists relative_prices,
    relative_prices_of items = Ok relative_prices /\
    Forall2 (fun av bv => fst av = fst bv /\ length (snd bv) = length (snd av))
            items relative_prices.
Proof.
  unfold relative_prices_of. apply mapM_Forall2. intros [asset values] _. cbn [fst snd].
  destruct (compute_relative_change_length values) as (rel & -> & Hlen).
  eexists. split; [reflexivity|]. split; [reflexivity|exact Hlen].
Qed.

(** [min(min(values) for ...)] and [max(max(values) for ...)] need one asset
    at least and no empty list. *)
Lemma left_scale_total (relative_prices : dict (list F)) :
  relative_prices <> [] ->
  Forall (fun av => snd av <> []) relative_prices ->
  exists rel_min rel_max,
    left_scale relative_prices
    = Ok (rel_min, rel_max,
          if negb (feqb rel_max rel_min) then fsub rel_max rel_min else of_int 1).
Proof.
  intros Hne Hall. unfold left_scale.
  destruct (mapM_succeeds (fun av : string * list F => py_min (snd av)) relative_prices)
    as (mins & -> & Hmins).
  { intros [a [|v l]] Hin; [|eexists; reflexivity].
    rewrite Forall_forall in Hall. destruct (Hall _ Hin). reflexivity. }
  destruct (mapM_succeeds (fun av : string * list F => py_max (snd av)) relative_prices)
    as (maxs & -> & Hmaxs).
  { intros [a [|v l]] Hin; [|eexists; reflexivity].
    rewrite Forall_forall in Hall. destruct (Hall _ Hin). reflexivity. }
  cbn [bind].
  destruct relative_prices as [|av rest]; [contradiction|].
  destruct mins as [|m mins]; [discriminate|]. destruct maxs as [|M maxs]; [discriminate|].
  cbn [py_min py_max bind]. eexists _, _. reflexivity.
Qed.

Lemma fluct_loop_keys (items : dict (list F)) (key : string) :
  forall (acc : dict (list F)) (lo hi : F) fluctuation lo' hi',
    fluct_loop items acc lo hi = Ok (fluctuation, lo', hi') ->
    match dict_get items key with
    | Ok _ => exists fluct, dict_get fluctuation key = Ok fluct
    | Raise _ =>
        match dict_get acc key with
        | Ok _ => exists fluct, dict_get fluctuation key = Ok fluct
        | Raise e => dict_get fluctuation key = Raise e
        end
    end.
Proof.
  induction items as [|[asset values] items IH];
    intros acc lo hi fluctuation lo' hi' Hrun; cbn [fluct_loop] in Hrun.
  - injection Hrun as <- _ _. cbn [dict_get].
    destruct (dict_get acc key) as [v|e]; [exists v|]; reflexivity.
  - destruct (compute_fluctuation values) as [fluct|e]; [|discriminate]. cbn [bind] in Hrun.
    destruct (py_min fluct) as [m|e]; [|discriminate]. cbn [bind] in Hrun.
    destruct (py_max fluct) as [M|e]; [|discriminate]. cbn [bind] in Hrun.
    specialize (IH _ _ _ _ _ _ Hrun). rewrite dict_get_set in IH.
    cbn [dict_get]. destruct (String.eqb asset key).
    + destruct (dict_get items key); exact IH.
    + exact IH.
Qed.

End SeriesFacts.

(** ** Divisors of the rendering *)

Lemma compute_trendline_length (values : list float) :
  exists trend, compute_trendline values = Ok trend /\ length trend = length values.
Proof.
  destruct values as [|y rest]; [exists []; split; reflexivity|].
  rewrite (@compute_trendline_unfold float binary64 float_of_int_nonzero) by discriminate.
  eexists. split; [reflexivity|]. cbv zeta. unfold fitted.
  rewrite length_map, range_length. reflexivity.
Qed.

Lemma float_truediv_nonzero (x y : float) :
  (y =? 0)%float = false -> truediv x y = Ok (x / y)%float.
Proof.
  intros Hy. unfold truediv. cbn [feqb of_int binary64].
  change (float_of_int 0) with 0%float. rewrite Hy. reflexivity.
Qed.

Lemma price_y_total (rel_min rel_range value : float) :
  (rel_range =? 0)%float = false -> exists y, price_y rel_min rel_range value = Ok y.
Proof.
  intros Hr. unfold price_y. rewrite (float_truediv_nonzero _ _ Hr). cbn [bind].
  eexists. reflexivity.
Qed.

Lemma fluct_y_total (fluct_min fluct_max value : float) :
  (fluct_max - fluct_min =? 0)%float = false ->
  exists y, fluct_y fluct_min fluct_max value = Ok y.
Proof.
  intros Hr. unfold fluct_y. cbn [fsub binary64].
  rewrite (float_truediv_nonzero _ _ Hr). cbn [bind]. eexists. reflexivity.
Qed.

Lemma zip_points_total (to_y : float -> result float) (xs values : list float) :
  (forall v, exists y, to_y v = Ok y) ->
  exists points, zip_points to_y xs values = Ok points.
Proof.
  intros Hy. unfold zip_points.
  destruct (mapM_succeeds (fun xv : float * float => y <- to_y (snd xv) ;; Ok (fst xv, y))
                          (combine xs values)) as (points & Hp & _).
  - intros [x v] _. cbn [fst snd]. destruct (Hy v) as [y ->]. eexists. reflexivity.
  - exists points. exact Hp.
Qed.

(** The range of the left scale is never zero: two floats that differ have
    a non-zero difference. *)
Lemma rel_range_nonzero (rel_min rel_max : float) :
  ((if negb (feqb rel_max rel_min) then fsub rel_max rel_min else of_int 1) =? 0)%float
  = false.
Proof.
  cbn [feqb fsub of_int binary64].
  destruct (rel_max =? rel_min)%float eqn:E; cbn [negb].
  - reflexivity.
  - apply float_sub_nonzero, E.
Qed.

Section DrawingFacts.
Variable float_str : float -> string.

Lemma grid_tick_total (rel_min rel_range : float) (i : Z) :
  (rel_range =? 0)%float = false ->
  exists lines, grid_tick rel_min rel_range i = Ok lines /\ length lines = 2%nat.
Proof.
  intros Hr. unfold grid_tick.
  rewrite float_truediv_int by (unfold price_ticks; lia). cbn [bind].
  destruct (price_y_total rel_min rel_range
              (fadd rel_min (fmul (rel_range / float_of_int (price_ticks - 1))%float (of_int i)))
              Hr) as [y ->].
  cbn [bind]. eexists. split; reflexivity.
Qed.

Lemma fluct_tick_total (fluct_min fluct_max : float) (i : Z) :
  (fluct_max - fluct_min =? 0)%float = false ->
  exists label, fluct_tick fluct_min fluct_max i = Ok label.
Proof.
  intros Hr. unfold fluct_tick.
  rewrite float_truediv_int by (unfold fluct_ticks; lia). cbn [bind].
  destruct (fluct_y_total fluct_min fluct_max
              (fadd fluct_min
                    (fmul (fsub fluct_max fluct_min / float_of_int (fluct_ticks - 1))%float
                          (of_int i)))
              Hr) as [y ->].
  cbn [bind]. eexists. reflexivity.
Qed.

Lemma x_axis_labels_total (series_dates : list datetime) (xs : list float) :
  length xs = length series_dates ->
  exists labels,
    x_axis_labels series_dates xs (Z.of_nat (length series_dates)) = Ok labels /\
    length labels = length (label_indices (Z.of_nat (length series_dates))).
Proof.
  intros Hlen. destruct series_dates as [|d rest] eqn:Ed.
  - destruct xs; [|discriminate]. exists []. split; reflexivity.
  - rewrite <- Ed in *.
    assert (Hc : 1 <= Z.of_nat (length series_dates)) by (subst; cbn [length]; lia).
    pose proof (x_axis_labels_by_index series_dates xs Hc Hlen) as Hby. cbv zeta in Hby.
    rewrite Hby. apply mapM_succeeds. intros idx Hidx.
    apply (label_indices_In _ idx Hc) in Hidx.
    assert (Hr : 0 <= idx < Z.of_nat (length series_dates))
      by (destruct Hidx as [[Hr _]| ->]; lia).
    unfold date_label.
    destruct (list_get_in_range series_dates idx) as [d' ->]; [exact Hr|].
    destruct (list_get_in_range xs idx) as [x ->]; [rewrite Hlen; exact Hr|].
    eexists. reflexivity.
Qed.

Lemma titles_total : exists texts, @titles float binary64 = Ok texts /\ length texts = 4%nat.
Proof. eexists. split; [vm_compute; reflexivity|reflexivity]. Qed.

End DrawingFacts.

(** ** render_svg up to the date labels *)

Section RenderFacts.
Variable float_str : float -> string.

(** Lines 150-234 on a series with at least one asset and no empty price
    list: everything up to the date labels is computed without an
    exception, both scales have a non-zero range, and the three dicts have
    the keys of [series.prices]. *)
Lemma svg_parts_scales (series : PriceSeries float) :
  prices series <> [] ->
  (forall asset values, In (asset, values) (prices series) -> values <> []) ->
  exists xs relative_prices price_trendlines fluctuation
         (rel_min rel_range fluct_min fluct_max : float)
         (rest : list (list string) -> list string -> result (list string)),
    svg_parts float_str series
    = (price_lines <-
         mapM (price_polylines float_str rel_min rel_range xs relative_prices price_trendlines)
              ASSETS ;;
       fluct_lines <- mapM (fluct_polyline float_str fluct_min fluct_max xs fluctuation) ASSETS ;;
       rest price_lines fluct_lines) /\
    (forall price_lines fluct_lines, exists parts, rest price_lines fluct_lines = Ok parts) /\
    (rel_range =? 0)%float = false /\
    (fluct_max - fluct_min =? 0)%float = false /\
    forall key,
      match dict_get (prices series) key with
      | Ok _ =>
          (exists rel, dict_get relative_prices key = Ok rel) /\
          (exists trend, dict_get price_trendlines key = Ok trend) /\
          (exists fluct, dict_get fluctuation key = Ok fluct)
      | Raise e => dict_get relative_prices key = Raise e
      end.
Proof.
  intros Hsome Hne.
  set (count := Z.of_nat (length (dates series))).
  destruct (linspace_float_length margin_left (margin_left + plot_width) count)
    as (xs & Hxs & Hlen); [unfold count; lia|].
  destruct (relative_prices_of_keys (prices series)) as (rp & Hrp & Hkeys).
  assert (Hrp_ne : rp <> []).
  { intros ->. inversion Hkeys as [Hnil|]. apply Hsome. symmetry. exact Hnil. }
  assert (Hrp_all : Forall (fun av : string * list float => snd av <> []) rp).
  { clear - Hkeys Hne. induction Hkeys as [|[a v] [b r] l l' [_ Hl] _ IH]; constructor.
    - cbn [snd] in *. intros ->. apply (Hne a v); [left; reflexivity|].
      apply length_zero_iff_nil. symmetry. exact Hl.
    - apply IH. intros a' v' Hin. apply (Hne a'). right. exact Hin. }
  destruct (left_scale_total rp Hrp_ne Hrp_all) as (rel_min & rel_max & Hls).
  pose proof (rel_range_nonzero rel_min rel_max) as Hrange.
  set (rel_range := if negb (feqb rel_max rel_min) then fsub rel_max rel_min else of_int 1) in *.
  destruct (fluct_loop_total (prices series) Hne [] (of_int 0) (of_int 0))
    as (fl & lo & hi & Hraw).
  destruct (fluct_raw_bounds (prices series) fl lo hi Hraw) as [Hlo Hhi].
  pose proof (fluct_span_nonzero lo hi Hlo Hhi) as Hspan.
  assert (Hdom : fluct_domain (prices series)
                 = Ok (fl, fst (fluct_pad (fluct_nudge (lo, hi))),
                       snd (fluct_pad (fluct_nudge (lo, hi))))).
  { unfold fluct_domain, fluct_raw. rewrite Hraw. cbn [bind].
    destruct (fluct_pad (fluct_nudge (lo, hi))). reflexivity. }
  set (fluct_min := fst (fluct_pad (fluct_nudge (lo, hi)))) in *.
  set (fluct_max := snd (fluct_pad (fluct_nudge (lo, hi)))) in *.
  destruct (mapM_Forall2
              (fun av : string * list float => t <- compute_trendline (snd av) ;; Ok (fst av, t))
              (fun av bv => fst av = fst bv /\ length (snd bv) = length (snd av)) rp)
    as (tl & Htl & Htkeys).
  { intros [a r] _. cbn [fst snd].
    destruct (compute_trendline_length r) as (t & -> & Ht).
    eexists. split; [reflexivity|]. split; [reflexivity|exact Ht]. }
  destruct (mapM_succeeds (grid_tick rel_min rel_range) (range (Z.to_nat price_ticks)))
    as (grid & Hgrid & _).
  { intros i _. destruct (grid_tick_total rel_min rel_range i Hrange) as (l & -> & _).
    eexists. reflexivity. }
  destruct (mapM_succeeds (fluct_tick fluct_min fluct_max) (range (Z.to_nat fluct_ticks)))
    as (right_labels & Hright & _).
  { intros i _. apply fluct_tick_total, Hspan. }
  destruct (x_axis_labels_total (dates series) xs) as (date_labels & Hdates & _);
    [unfold count in Hlen; lia|].
  fold count in Hdates.
  exists xs, rp, tl, fl, rel_min, rel_range, fluct_min, fluct_max.
  eexists. split; [|split; [|split; [exact Hrange|split; [exact Hspan|]]]].
  - unfold svg_parts. fold count. rewrite Hxs. cbn [bind]. rewrite Hrp. cbn [bind].
    rewrite Hls. cbn [bind]. rewrite Hdom. cbn [bind]. rewrite Htl. cbn [bind].
    rewrite Hgrid. cbn [bind]. rewrite Hright. cbn [bind]. rewrite Hdates. cbn [bind].
    match goal with
    | |- bind ?m1 (fun pl => bind ?m2 (fun fl => @?k pl fl)) = _ =>
        instantiate (1 := k)
    end.
    reflexivity.
  - intros price_lines fluct_lines. cbv beta.
    destruct titles_total as (texts & -> & _). cbn [bind]. eexists. reflexivity.
  - intros key.
    pose proof (dict_get_Forall2 (fun v r : list float => length r = length v)
                                 (prices series) rp key Hkeys) as Hk1.
    pose proof (fluct_loop_keys (prices series) key [] _ _ _ _ _ Hraw) as Hk3.
    destruct (dict_get (prices series) key) as [v|e].
    + destruct Hk1 as (rel & Hrel & _). split; [exists rel; exact Hrel|]. split; [|exact Hk3].
      pose proof (dict_get_Forall2 (fun v r : list float => length r = length v)
                                   rp tl key Htkeys) as Hk2.
      rewrite Hrel in Hk2. destruct Hk2 as (trend & Htrend & _). exists trend. exact Htrend.
    + exact Hk1.
Qed.

End RenderFacts.

(** ** The polylines *)

Lemma asset_colors (asset : string) :
  In asset ASSETS ->
  exists price_color trend_color fluct_color,
    dict_get PRICE_COLORS asset = Ok price_color /\
    dict_get TRENDLINE_COLORS asset = Ok trend_color /\
    dict_get FLUCTUATION_COLORS asset = Ok fluct_color.
Proof.
  intros [<-|[<-|[]]]; eexists _, _, _; repeat split; reflexivity.
Qed.

(** The first exception among the items of a [mapM] is its outcome. *)
Lemma mapM_raises {A B : Type} (f : A -> result B) (front : list A) (a : A) (back : list A)
      (e : exn) :
  (forall a', In a' front -> exists b, f a' = Ok b) ->
  f a = Raise e ->
  mapM f (front ++ a :: back) = Raise e.
Proof.
  intros Hfront Ha. induction front as [|a' front IH]; cbn [app mapM].
  - rewrite Ha. reflexivity.
  - destruct (Hfront a' (or_introl eq_refl)) as [b ->]. cbn [bind].
    rewrite IH by (intros x Hx; apply Hfront; right; exact Hx). reflexivity.
Qed.

Section RenderTheorems.
Variable float_str : float -> string.

Lemma price_polylines_total (rel_min rel_range : float) (xs : list float)
      (relative_prices price_trendlines : dict (list float)) (asset : string) :
  (rel_range =? 0)%float = false ->
  In asset ASSETS ->
  (exists rel, dict_get relative_prices asset = Ok rel) ->
  (exists trend, dict_get price_trendlines asset = Ok trend) ->
  exists lines,
    price_polylines float_str rel_min rel_range xs relative_prices price_trendlines asset
    = Ok lines.
Proof.
  intros Hr Hin [rel Hrel] [trend Htrend]. unfold price_polylines.
  destruct (asset_colors asset Hin) as (c1 & c2 & _ & -> & -> & _).
  rewrite Hrel, Htrend. cbn [bind].
  destruct (zip_points_total (price_y rel_min rel_range) xs rel) as [p1 ->];
    [intros v; apply price_y_total, Hr|].
  cbn [bind].
  destruct (zip_points_total (price_y rel_min rel_range) xs trend) as [p2 ->];
    [intros v; apply price_y_total, Hr|].
  cbn [bind]. eexists. reflexivity.
Qed.

Lemma fluct_polyline_total (fluct_min fluct_max : float) (xs : list float)
      (fluctuation : dict (list float)) (asset : string) :
  (fluct_max - fluct_min =? 0)%float = false ->
  In asset ASSETS ->
  (exists fluct, dict_get fluctuation asset = Ok fluct) ->
  exists line, fluct_polyline float_str fluct_min fluct_max xs fluctuation asset = Ok line.
Proof.
  intros Hr Hin [fluct Hfluct]. unfold fluct_polyline.
  destruct (asset_colors asset Hin) as (_ & _ & c3 & _ & _ & ->).
  rewrite Hfluct. cbn [bind].
  destruct (zip_points_total (fluct_y fluct_min fluct_max) xs fluct) as [p ->];
    [intros v; apply fluct_y_total, Hr|].
  cbn [bind]. eexists. reflexivity.
Qed.

(** X5: when no price list is empty but ABTC or BTC is not a key of
    series.prices, render_svg computes both scales, then raises KeyError for
    the first asset of ASSETS that is missing (line 238) and writes
    nothing. *)
Theorem render_svg_missing_asset
        (series : PriceSeries float) (output_path : string) (fs : filesystem) :
  prices series <> [] ->
  (forall asset values, In (asset, values) (prices series) -> values <> []) ->
  (exists asset, In asset ASSETS /\ dict_get (prices series) asset = Raise (KeyError asset)) ->
  render_svg float_str series output_path fs
  = Raise (KeyError (match dict_get (prices series) "ABTC" with
                     | Ok _ => "BTC"
                     | Raise _ => "ABTC"
                     end)).
Proof.
  intros Hsome Hne (asset & Hin & Hmiss).
  destruct (svg_parts_scales float_str series Hsome Hne)
    as (xs & rp & tl & fl & rel_min & rel_range & fluct_min & fluct_max & rest
        & Hparts & _ & Hrange & _ & Hkeys).
  unfold render_svg. rewrite Hparts.
  pose proof (Hkeys "ABTC") as Ha. pose proof (Hkeys "BTC") as Hb.
  destruct (dict_get_cases (prices series) "ABTC") as [(va & Hva & _)|Hma].
  - rewrite Hva in *. destruct Ha as (Ha1 & Ha2 & _).
    assert (Hmb : dict_get (prices series) "BTC" = Raise (KeyError "BTC")).
    { destruct Hin as [<-|[<-|[]]]; [rewrite Hva in Hmiss; discriminate|exact Hmiss]. }
    rewrite Hmb in Hb.
    rewrite (mapM_raises (price_polylines float_str rel_min rel_range xs rp tl)
                         ["ABTC"] "BTC" [] (KeyError "BTC")); [reflexivity| |].
    + intros a [<-|[]]. apply price_polylines_total; [exact Hrange|left; reflexivity| |]; assumption.
    + unfold price_polylines. rewrite Hb. reflexivity.
  - rewrite Hma in *.
    rewrite (mapM_raises (price_polylines float_str rel_min rel_range xs rp tl)
                         [] "ABTC" ["BTC"] (KeyError "ABTC")); [reflexivity| |].
    + intros a [].
    + unfold price_polylines. rewrite Ha. reflexivity.
Qed.

End RenderTheorems.

Lemma render_svg_missing_asset_witness :
  let d := {| year := 2024; month := 1; day := 1; hour := 0; minute := 0; second := 0 |} in
  render_svg (fun _ => "") {| dates := [d]; prices := [("ABTC", [100]%float)] |}
             "out.svg" (fun _ => None)
  = Raise (KeyError "BTC").
Proof.
  intros d.
  apply (render_svg_missing_asset (fun _ => "")
           {| dates := [d]; prices := [("ABTC", [100]%float)] |} "out.svg" (fun _ => None)).
  - discriminate.
  - intros asset values [Heq|[]]. injection Heq as _ <-. discriminate.
  - exists "BTC". split; [right; left; reflexivity|reflexivity].
Defined.

(** ** The records load_price_data takes *)

Section LoadingShape.
Context {F : Type}.
Variable fromisoformat : string -> result datetime.
Variable float_of_str : string -> result F.
Variable fields : list string.




End LoadingShape.

(** ** Outcomes of render_svg and of load_price_data *)

Section RenderTotal.
Variable float_str : float -> string.

Lemma svg_parts_succeeds (series : PriceSeries float) :
  (forall asset values, In (asset, values) (prices series) -> values <> []) ->
  (forall asset, In asset ASSETS -> exists values, dict_get (prices series) asset = Ok values) ->
  exists parts, svg_parts float_str series = Ok parts.
Proof.
  intros Hne Hassets.
  assert (Hsome : prices series <> []).
  { destruct (Hassets "ABTC") as [v Hv]; [left; reflexivity|].
    intros E. rewrite E in Hv. discriminate. }
  destruct (svg_parts_scales float_str series Hsome Hne)
    as (xs & rp & tl & fl & rel_min & rel_range & fluct_min & fluct_max & rest
        & Hparts & Hrest & Hrange & Hspan & Hkeys).
  assert (Hpresent : forall asset, In asset ASSETS ->
            (exists rel, dict_get rp asset = Ok rel) /\
            (exists trend, dict_get tl asset = Ok trend) /\
            (exists fluct, dict_get fl asset = Ok fluct)).
  { intros asset Hin. specialize (Hkeys asset).
    destruct (Hassets asset Hin) as [v Hv]. rewrite Hv in Hkeys. exact Hkeys. }
  destruct (mapM_succeeds (price_polylines float_str rel_min rel_range xs rp tl) ASSETS)
    as (price_lines & Hpl & _).
  { intros asset Hin. destruct (Hpresent asset Hin) as (H1 & H2 & _).
    apply price_polylines_total; assumption. }
  destruct (mapM_succeeds (fluct_polyline float_str fluct_min fluct_max xs fl) ASSETS)
    as (fluct_lines & Hfl & _).
  { intros asset Hin. destruct (Hpresent asset Hin) as (_ & _ & H3).
    apply fluct_polyline_total; assumption. }
  destruct (Hrest price_lines fluct_lines) as [parts Hok].
  exists parts. rewrite Hparts, Hpl. cbn [bind]. rewrite Hfl. cbn [bind]. exact Hok.
Qed.

(** X1: on binary64, render_svg raises no exception when no price list is
    empty and both ABTC and BTC are keys of series.prices, whatever the
    dates and however long the lists: no division meets a zero divisor (two
    different floats have a non-zero difference, and the right scale is
    nudged apart before it is padded), no [min] or [max] meets an empty
    sequence, no index leaves its list.  The document is written to the
    output path and no other path changes.  (Writing the file is taken to
    succeed.) *)
Theorem render_svg_never_raises
        (series : PriceSeries float) (output_path : string) (fs : filesystem) :
  (forall asset values, In (asset, values) (prices series) -> values <> []) ->
  (forall asset, In asset ASSETS -> exists values, dict_get (prices series) asset = Ok values) ->
  exists parts fs',
    svg_parts float_str series = Ok parts /\
    render_svg float_str series output_path fs = Ok fs' /\
    fs' output_path = Some (String.concat newline parts) /\
    forall path, path <> output_path -> fs' path = fs path.
Proof.
  intros Hne Hassets.
  destruct (svg_parts_succeeds series Hne Hassets) as [parts Hsvg].
  exists parts, (write_text fs output_path (String.concat newline parts)).
  split; [exact Hsvg|]. split; [unfold render_svg; rewrite Hsvg; reflexivity|].
  unfold write_text. split.
  - rewrite String.eqb_refl. reflexivity.
  - intros path Hpath. apply String.eqb_neq in Hpath. rewrite Hpath. reflexivity.
Qed.

Lemma mapM_raises_uniform {A B : Type} (f : A -> result B) (l : list A) (e : exn) :
  (forall a, In a l -> (exists b, f a = Ok b) \/ f a = Raise e) ->
  (exists a, In a l /\ f a = Raise e) ->
  mapM f l = Raise e.
Proof.
  induction l as [|a l IH]; intros Hall (bad & Hin & Hbad); [destruct Hin|].
  cbn [mapM].
  destruct (Hall a (or_introl eq_refl)) as [[b Hb]|Hr]; [|rewrite Hr; reflexivity].
  rewrite Hb. cbn [bind]. rewrite IH; [reflexivity| |].
  - intros a' Ha'. apply Hall. right. exact Ha'.
  - exists bad. split; [|exact Hbad]. destruct Hin as [->|Hin]; [|exact Hin].
    rewrite Hb in Hbad. discriminate.
Qed.

(** X4: when series.prices has no asset at all, or holds an empty price
    list, render_svg raises a ValueError (the one of [min] on an empty
    sequence, line 161) and writes nothing. *)
Theorem render_svg_empty_prices
        (series : PriceSeries float) (output_path : string) (fs : filesystem) :
  prices series = [] \/ (exists asset, In (asset, []) (prices series)) ->
  exists msg,
    svg_parts float_str series = Raise (ValueError msg) /\
    render_svg float_str series output_path fs = Raise (ValueError msg).
Proof.
  intros Hempty.
  exists "min() arg is an empty sequence".
  assert (Hsvg : svg_parts float_str series = Raise (ValueError "min() arg is an empty sequence")).
  2:{ split; [exact Hsvg|]. unfold render_svg. rewrite Hsvg. reflexivity. }
  unfold svg_parts.
  destruct (linspace_float_length margin_left (margin_left + plot_width)
                                  (Z.of_nat (length (dates series))))
    as (xs & -> & _); [lia|].
  cbn [bind].
  destruct (relative_prices_of_keys (prices series)) as (rp & -> & Hkeys). cbn [bind].
  assert (Hls : left_scale rp = Raise (ValueError "min() arg is an empty sequence")).
  2:{ rewrite Hls. reflexivity. }
  unfold left_scale.
  destruct Hempty as [Hnil|(asset & Hin)].
  - rewrite Hnil in Hkeys. inversion Hkeys. reflexivity.
  - rewrite (mapM_raises_uniform (fun av : string * list float => py_min (snd av)) rp
                                 (ValueError "min() arg is an empty sequence"));
      [reflexivity| |].
    + intros [a [|v l]] _; [right; reflexivity|left; eexists; reflexivity].
    + clear - Hkeys Hin. induction Hkeys as [|[a v] [b r] l l' [_ Hl] _ IH]; [destruct Hin|].
      destruct Hin as [Heq|Hin].
      * injection Heq as -> ->. cbn [snd length] in Hl.
        apply length_zero_iff_nil in Hl. subst r.
        exists (b, []). split; [left; reflexivity|reflexivity].
      * destruct (IH Hin) as (bad & Hbad & Hr). exists bad. split; [right; exact Hbad|exact Hr].
Qed.

End RenderTotal.

Lemma render_svg_empty_prices_witness :
  exists msg,
    svg_parts (fun _ => "") {| dates := []; prices := [("ABTC", @nil float)] |}
    = Raise (ValueError msg) /\
    render_svg (fun _ => "") {| dates := []; prices := [("ABTC", @nil float)] |}
               "out.svg" (fun _ => None)
    = Raise (ValueError msg).
Proof.
  apply (render_svg_empty_prices (fun _ => "")
           {| dates := []; prices := [("ABTC", @nil float)] |} "out.svg" (fun _ => None)).
  right. exists "ABTC". left. reflexivity.
Defined.

Lemma render_svg_never_raises_witness :
  let d := {| year := 2024; month := 1; day := 1; hour := 0; minute := 0; second := 0 |} in
  let series := {| dates := [d; d];
                   prices := [("ABTC", [100; 110]%float); ("BTC", [200; 190]%float)] |} in
  exists parts fs',
    svg_parts (fun _ => "") series = Ok parts /\
    render_svg (fun _ => "") series "out.svg" (fun _ => None) = Ok fs' /\
    fs' "out.svg" = Some (String.concat newline parts) /\
    forall path, path <> "out.svg" -> fs' path = None.
Proof.
  intros d series.
  apply (render_svg_never_raises (fun _ => "") series "out.svg" (fun _ => None)).
  - intros asset values [Heq|[Heq|[]]]; injection Heq as _ <-; discriminate.
  - intros asset [<-|[<-|[]]]; eexists; reflexivity.
Defined.

Section LoadTheorems.
Context {F : Type}.
Variable fromisoformat : string -> result datetime.
Variable float_of_str : string -> result F.


End LoadTheorems.


(** ** Order and number of the date labels *)

Lemma range_step_length (stop step : Z) :
  length (range_step stop step) = Z.to_nat ((stop + step - 1) / step).
Proof. unfold range_step. rewrite length_map, length_seq. reflexivity. Qed.

Lemma multiples_sorted (step : Z) (start len : nat) :
  0 < step ->
  StronglySorted Z.lt (map (fun k => Z.of_nat k * step) (seq start len)).
Proof.
  intros Hstep. revert start. induction len as [|len IH]; intros start; cbn [seq map].
  - constructor.
  - constructor; [apply IH|].
    apply Forall_forall. intros x Hx. apply in_map_iff in Hx.
    destruct Hx as (k & <- & Hk). apply in_seq in Hk. nia.
Qed.

Lemma StronglySorted_snoc (l : list Z) (a : Z) :
  StronglySorted Z.lt l -> (forall x, In x l -> x < a) -> StronglySorted Z.lt (l ++ [a]).
Proof.
  induction 1 as [|x l Hs IH Hx]; intros Hlt; cbn [app].
  - constructor; constructor.
  - constructor.
    + apply IH. intros y Hy. apply Hlt. right. exact Hy.
    + apply Forall_app. split; [exact Hx|]. constructor; [|constructor].
      apply Hlt. left. reflexivity.
Qed.

Lemma label_indices_sorted (count : Z) : StronglySorted Z.lt (label_indices count).
Proof.
  unfold label_indices. cbv zeta.
  pose proof (label_step_pos count) as Hs.
  assert (Hsorted : StronglySorted Z.lt (range_step count (label_step count)))
    by (apply multiples_sorted, Hs).
  destruct ((count - 1) mod label_step count =? 0) eqn:E; cbn [negb].
  - rewrite app_nil_r. exact Hsorted.
  - apply StronglySorted_snoc; [exact Hsorted|].
    intros x Hx. apply (range_step_In count (label_step count) x Hs) in Hx.
    destruct Hx as [Hr Hm]. apply Z.eqb_neq in E.
    assert (x <> count - 1) by (intros ->; contradiction). lia.
Qed.

Lemma label_indices_first (count : Z) :
  1 <= count -> exists rest, label_indices count = 0 :: rest.
Proof.
  intros Hc. unfold label_indices, range_step. cbv zeta.
  pose proof (label_step_pos count) as Hs.
  assert (Hq : 1 <= (count + label_step count - 1) / label_step count).
  { apply Z.div_le_lower_bound; lia. }
  destruct (Z.to_nat ((count + label_step count - 1) / label_step count)) as [|m] eqn:Em; [lia|].
  cbn [seq map app]. eexists. reflexivity.
Qed.

Lemma label_indices_last (count : Z) :
  1 <= count -> exists front, label_indices count = (front ++ [count - 1])%list.
Proof.
  intros Hc. unfold label_indices. cbv zeta.
  pose proof (label_step_pos count) as Hs.
  destruct ((count - 1) mod label_step count =? 0) eqn:E; cbn [negb].
  - rewrite app_nil_r. apply Z.eqb_eq in E.
    unfold range_step.
    set (m := Z.to_nat ((count + label_step count - 1) / label_step count)).
    apply Z.mod_divide in E; [|lia]. destruct E as [q Hq].
    assert (Hq0 : 0 <= q) by nia.
    assert (Hm : m = S (Z.to_nat q)).
    { unfold m. replace (count + label_step count - 1) with ((q + 1) * label_step count) by lia.
      rewrite Z.div_mul by lia. lia. }
    rewrite Hm, seq_S, map_app. cbn [map Nat.add].
    eexists. f_equal. f_equal. lia.
  - eexists. reflexivity.
Qed.

Lemma label_indices_count (count : Z) : (length (label_indices count) <= 9)%nat.
Proof.
  unfold label_indices. cbv zeta. rewrite length_app, range_step_length.
  destruct (Z_lt_le_dec count 10) as [Hsmall|Hbig].
  - destruct (Z_lt_le_dec count 1) as [Hneg|Hpos].
    + assert (Hstep : label_step count = 1).
      { unfold label_step. rewrite Z.min_r by lia.
        destruct (1 <? count) eqn:E; [apply Z.ltb_lt in E; lia|reflexivity]. }
      rewrite Hstep. replace (count + 1 - 1) with count by lia. rewrite Z.div_1_r.
      rewrite Z.mod_1_r. cbn. lia.
    + assert (Hcases : count = 1 \/ count = 2 \/ count = 3 \/ count = 4 \/ count = 5 \/
                       count = 6 \/ count = 7 \/ count = 8 \/ count = 9) by lia.
      destruct Hcases as [->|[->|[->|[->|[->|[->|[->|[->| ->]]]]]]]]; vm_compute; lia.
  - rewrite label_step_stride by lia.
    assert (Hq : 2 <= count / 5) by (apply Z.div_le_lower_bound; lia).
    rewrite Z.max_r by lia.
    set (step := count / 5) in *.
    assert (Hcount : count <= 5 * step + 4).
    { pose proof (Z.div_mod count 5 ltac:(lia)) as Hdm.
      pose proof (Z.mod_pos_bound count 5 ltac:(lia)). unfold step. lia. }
    assert (Hlen : (count + step - 1) / step <= 7).
    { apply Z.lt_succ_r. apply Z.div_lt_upper_bound; lia. }
    assert (H0 : 0 <= (count + step - 1) / step) by (apply Z.div_pos; lia).
    destruct (negb _); cbn [length]; lia.
Qed.

(** ** The elements of the document *)

Lemma mapM_length {A B : Type} (f : A -> result B) (l : list A) (bs : list B) :
  mapM f l = Ok bs -> length bs = length l.
Proof.
  revert bs. induction l as [|a l IH]; intros bs Hm; cbn [mapM] in Hm.
  - injection Hm as <-. reflexivity.
  - destruct (f a) as [b|e]; [|discriminate]. cbn [bind] in Hm.
    destruct (mapM f l) as [bs'|e]; [|discriminate]. cbn [bind] in Hm.
    injection Hm as <-. cbn [length]. rewrite (IH bs' eq_refl). reflexivity.
Qed.

Lemma mapM_Forall {A B : Type} (f : A -> result B) (P : B -> Prop) (l : list A) (bs : list B) :
  (forall a b, f a = Ok b -> P b) -> mapM f l = Ok bs -> Forall P bs.
Proof.
  intros HP. revert bs. induction l as [|a l IH]; intros bs Hm; cbn [mapM] in Hm.
  - injection Hm as <-. constructor.
  - destruct (f a) as [b|e] eqn:Hb; [|discriminate]. cbn [bind] in Hm.
    destruct (mapM f l) as [bs'|e]; [|discriminate]. cbn [bind] in Hm.
    injection Hm as <-. constructor; [exact (HP a b Hb)|apply IH; reflexivity].
Qed.

Lemma concat_length_uniform {A : Type} (ls : list (list A)) (n : nat) :
  Forall (fun l => length l = n) ls -> length (concat ls) = (n * length ls)%nat.
Proof.
  induction 1 as [|l ls Hl _ IH]; cbn [concat length]; [lia|].
  rewrite length_app, Hl, IH. lia.
Qed.

Section DocumentShape.
Context {F : Type} `{Num F}.
Variable float_str : F -> string.

Lemma x_axis_labels_length (series_dates : list datetime) (xs : list F) (count : Z)
      (labels : list string) :
  x_axis_labels series_dates xs count = Ok labels ->
  length labels = length (label_indices count).
Proof.
  unfold x_axis_labels, label_indices. cbv zeta. intros Hl.
  destruct (mapM _ (range_step count (label_step count))) as [stride|e] eqn:Hs; [|discriminate].
  cbn [bind] in Hl. apply mapM_length in Hs.
  destruct (negb ((count - 1) mod label_step count =? 0)).
  - destruct (list_last xs) as [x|e]; [|discriminate]. cbn [bind] in Hl.
    destruct (list_last series_dates) as [d|e]; [|discriminate]. cbn [bind] in Hl.
    injection Hl as <-. rewrite !length_app, Hs. reflexivity.
  - cbn [bind] in Hl. injection Hl as <-. rewrite !length_app, Hs. reflexivity.
Qed.

Lemma svg_parts_length (series : PriceSeries F) (parts : list string) :
  svg_parts float_str series = Ok parts ->
  length parts
  = (47 + length (label_indices (Z.of_nat (length (dates series)))))%nat /\
  hd_error parts = Some "<?xml version='1.0' encoding='utf-8'?>" /\
  list_last parts = Ok "</svg>".
Proof.
  unfold svg_parts. cbv zeta. intros Hp.
  destruct (_linspace _ _ _) as [xs|e]; [|discriminate]. cbn [bind] in Hp.
  destruct (relative_prices_of _) as [rp|e]; [|discriminate]. cbn [bind] in Hp.
  destruct (left_scale rp) as [[[rel_min rel_max] rel_range]|e]; [|discriminate].
  cbn [bind] in Hp.
  destruct (fluct_domain _) as [[[fl fluct_min] fluct_max]|e]; [|discriminate].
  cbn [bind] in Hp.
  destruct (mapM _ rp) as [tl|e]; [|discriminate]. cbn [bind] in Hp.
  destruct (mapM (grid_tick rel_min rel_range) _) as [grid|e] eqn:Hgrid; [|discriminate].
  cbn [bind] in Hp.
  destruct (mapM (fluct_tick fluct_min fluct_max) _) as [right_labels|e] eqn:Hright;
    [|discriminate].
  cbn [bind] in Hp.
  destruct (x_axis_labels _ _ _) as [date_labels|e] eqn:Hdates; [|discriminate].
  cbn [bind] in Hp.
  destruct (mapM (price_polylines _ _ _ _ _ _) ASSETS) as [price_lines|e] eqn:Hpl;
    [|discriminate].
  cbn [bind] in Hp.
  destruct (mapM (fluct_polyline _ _ _ _ _) ASSETS) as [fluct_lines|e] eqn:Hfl; [|discriminate].
  cbn [bind] in Hp.
  destruct titles as [title_texts|e] eqn:Ht; [|discriminate]. cbn [bind] in Hp.
  assert (Hparts : forall a b : list string, Ok a = Ok b -> a = b) by (intros a b [=]; assumption).
  apply Hparts in Hp. subst parts. clear Hparts.
  assert (Hg : length (concat grid) = 12%nat).
  { rewrite (concat_length_uniform grid 2).
    - rewrite (mapM_length _ _ _ Hgrid). reflexivity.
    - apply (mapM_Forall (grid_tick rel_min rel_range) _ _ _) with (2 := Hgrid).
      intros i l Hl. unfold grid_tick in Hl.
      destruct (truediv rel_range _) as [tick|e]; [|discriminate]. cbn [bind] in Hl.
      destruct (price_y _ _ _) as [y|e]; [|discriminate]. cbn [bind] in Hl.
      injection Hl as <-. reflexivity. }
  assert (Hpl2 : length (concat price_lines) = 4%nat).
  { rewrite (concat_length_uniform price_lines 2).
    - rewrite (mapM_length _ _ _ Hpl). reflexivity.
    - apply (mapM_Forall (price_polylines float_str rel_min rel_range xs rp tl) _ _ _)
        with (2 := Hpl).
      intros a l Hl. unfold price_polylines in Hl.
      repeat match type of Hl with
             | bind ?m _ = _ => destruct m; [cbn [bind] in Hl|discriminate]
             end.
      injection Hl as <-. reflexivity. }
  assert (Htl : length title_texts = 4%nat).
  { unfold titles in Ht.
    repeat match type of Ht with
           | bind ?m _ = _ => destruct m; [cbn [bind] in Ht|discriminate]
           end.
    injection Ht as <-. reflexivity. }
  pose proof (mapM_length _ _ _ Hright) as Hr.
  rewrite range_length in Hr. change (Z.to_nat fluct_ticks) with 6%nat in Hr.
  pose proof (mapM_length _ _ _ Hfl) as Hf.
  pose proof (x_axis_labels_length _ _ _ _ Hdates) as Hd.
  split; [|split].
  - assert (Hlg : length (concat (map (fun ie => legend_entry (fst ie) (snd ie))
                                        (combine (range (length legend_items)) legend_items)))
                  = 12%nat) by reflexivity.
    rewrite !length_app, Hg, Hpl2, Htl, Hr, Hf, Hd, Hlg.
    change (length axis_lines) with 3%nat. cbn [length ASSETS]. lia.
  - reflexivity.
  - unfold list_last. rewrite !app_assoc, rev_app_distr. reflexivity.
Qed.

End DocumentShape.

(** ** The left scale in exact arithmetic *)



Section ExactScales.
Local Open Scope Q_scope.









End ExactScales.


(** ** _linspace in exact arithmetic *)



(** ** The trendline in exact arithmetic *)


Section ExactTrend.
Local Open Scope Q_scope.
Variables a b : Q.






End ExactTrend.

Section NormalEquations.
Local Open Scope Q_scope.




End NormalEquations.

(** ** Finite baselines *)

(** A finite float is a zero or a finite non-zero number. *)
Lemma is_finite_cases (x : float) :
  is_finite x = true ->
  (exists s, Prim2SF x = S754_zero s) \/ (exists s m e, Prim2SF x = S754_finite s m e).
Proof.
  unfold is_finite, is_nan, is_infinity. rewrite !eqb_spec, abs_spec.
  change (Prim2SF infinity) with (S754_infinity false).
  destruct (Prim2SF x) as [s|s| |s m e]; cbn.
  - intros _. left. exists s. reflexivity.
  - destruct s; discriminate.
  - discriminate.
  - intros _. right. exists s, m, e. reflexivity.
Qed.

Lemma SF_pct_self (s : bool) (m : positive) (e : Z) (c : spec_float) :
  (exists sc mc ec, c = S754_finite sc mc ec) ->
  exists s', SF64mul (SF64div (SF64sub (S754_finite s m e) (S754_finite s m e))
                              (S754_finite s m e)) c
             = S754_zero s'.
Proof.
  intros (sc & mc & ec & ->). unfold SF64sub, SFsub. rewrite Z.sub_diag.
  cbn. eexists. reflexivity.
Qed.

(** A finite value measured against itself is worth 0 percent. *)
Lemma float_pct_from_self (b : float) :
  is_finite b = true -> (b =? 0)%float = false ->
  (pct_from b b =? 0)%float = true.
Proof.
  intros Hfin Hnz. destruct (is_finite_cases b Hfin) as [[s Hs]|(s & m & e & Hs)].
  - rewrite eqb_spec, Hs in Hnz. destruct s; discriminate.
  - unfold pct_from. cbn [fmul fdiv fsub of_int binary64].
    rewrite eqb_spec, mul_spec, div_spec, sub_spec, Hs.
    destruct (SF_pct_self s m e (Prim2SF (float_of_int 100))) as [s' ->].
    + eexists _, _, _. vm_compute. reflexivity.
    + destruct s'; reflexivity.
Qed.

Lemma float_eqb_zero_le (x : float) :
  (x =? 0)%float = true -> (x <=? 0)%float = true /\ (0 <=? x)%float = true.
Proof.
  intros E. destruct (float_eqb_zero_cases x E) as [-> | ->]; split; reflexivity.
Qed.

Lemma relative_change_first (b : float) (rest : list float) :
  is_finite b = true ->
  exists r0 rs,
    compute_relative_change (b :: rest) = Ok (r0 :: rs) /\
    (r0 =? 0)%float = true /\ length rs = length rest.
Proof.
  intros Hfin. rewrite compute_relative_change_cons. cbn [map].
  eexists _, _. split; [reflexivity|]. split; [|apply length_map].
  cbn [feqb of_int binary64]. change (float_of_int 0) with 0%float.
  destruct (b =? 0)%float eqn:E; [reflexivity|].
  apply float_pct_from_self; assumption.
Qed.

(** X10: on binary64, when series.prices has an asset and every price list
    starts with a finite value, the domain of the left scale contains zero:
    rel_min <= 0 <= rel_max. *)
Theorem left_scale_spans_zero (items : dict (list float)) :
  items <> [] ->
  (forall asset values, In (asset, values) items ->
                        exists b rest, values = b :: rest /\ is_finite b = true) ->
  exists relative_prices rel_min rel_max rel_range,
    relative_prices_of items = Ok relative_prices /\
    left_scale relative_prices = Ok (rel_min, rel_max, rel_range) /\
    (rel_min <=? 0)%float = true /\ (0 <=? rel_max)%float = true.
Proof.
  intros Hne Hfin.
  destruct (mapM_Forall2
              (fun av : string * list float =>
                 r <- compute_relative_change (snd av) ;; Ok (fst av, r))
              (fun _ bv => exists r0 rs, snd bv = r0 :: rs /\ (r0 =? 0)%float = true) items)
    as (rp & Hrp & Hall).
  { intros [asset values] Hin. destruct (Hfin asset values Hin) as (b & rest & -> & Hb).
    destruct (relative_change_first b rest Hb) as (r0 & rs & Hr & Hz & _).
    cbn [fst snd]. rewrite Hr. cbn [bind]. eexists. split; [reflexivity|].
    exists r0, rs. split; [reflexivity|exact Hz]. }
  assert (Hrp_all : forall bv, In bv rp ->
                               exists r0 rs, snd bv = r0 :: rs /\ (r0 =? 0)%float = true).
  { clear - Hall. induction Hall as [|av bv l l' Hb _ IH]; intros x Hx; [destruct Hx|].
    destruct Hx as [<-|Hx]; auto. }
  assert (Hrp_ne : rp <> []).
  { intros ->. inversion Hall as [Hnil|]. apply Hne. symmetry. exact Hnil. }
  destruct (mapM_Forall2 (fun av : string * list float => py_min (snd av))
                         (fun _ m => (m <=? 0)%float = true) rp) as (mins & Hmins & Hle).
  { intros bv Hin. destruct (Hrp_all bv Hin) as (r0 & rs & -> & Hz).
    eexists. split; [reflexivity|]. apply min_loop_le_zero, float_eqb_zero_le, Hz. }
  destruct (mapM_Forall2 (fun av : string * list float => py_max (snd av))
                         (fun _ m => (0 <=? m)%float = true) rp) as (maxs & Hmaxs & Hge).
  { intros bv Hin. destruct (Hrp_all bv Hin) as (r0 & rs & -> & Hz).
    eexists. split; [reflexivity|]. apply max_loop_ge_zero, float_eqb_zero_le, Hz. }
  exists rp. unfold relative_prices_of, left_scale. rewrite Hrp, Hmins, Hmaxs. cbn [bind].
  destruct Hle as [|bv m l ms Hm _]; [contradiction|].
  inversion Hge as [|bv' M l' Ms HM _]; subst.
  cbn [py_min py_max bind]. eexists _, _, _. split; [reflexivity|]. split; [reflexivity|].
  split; [apply min_loop_le_zero, Hm|apply max_loop_ge_zero, HM].
Qed.

Lemma left_scale_spans_zero_witness :
  exists relative_prices rel_min rel_max rel_range,
    relative_prices_of [("ABTC", [100; 110]%float); ("BTC", [200; 190]%float)]
    = Ok relative_prices /\
    left_scale relative_prices = Ok (rel_min, rel_max, rel_range) /\
    (rel_min <=? 0)%float = true /\ (0 <=? rel_max)%float = true.
Proof.
  apply (left_scale_spans_zero [("ABTC", [100; 110]%float); ("BTC", [200; 190]%float)]).
  - discriminate.
  - intros asset values [Heq|[Heq|[]]]; injection Heq as _ <-;
      eexists _, _; split; reflexivity.
Defined.

(** A finite price that does not move changes by 0 percent. *)
Lemma float_pct_change_self (b : float) :
  is_finite b = true -> (pct_change b b =? 0)%float = true.
Proof.
  intros Hfin. unfold pct_change. cbn [feqb of_int binary64].
  change (float_of_int 0) with 0%float.
  destruct (b =? 0)%float eqn:E; [reflexivity|].
  apply (float_pct_from_self b Hfin E).
Qed.

Lemma combine_repeat_tl {A : Type} (b : A) (n : nat) :
  combine (repeat b (S n)) (repeat b n) = repeat (b, b) n.
Proof.
  induction n as [|n IH]; [reflexivity|].
  cbn [repeat combine] in *. rewrite IH. reflexivity.
Qed.

(** X11: on binary64, a series that repeats one finite price has relative
    change zero and fluctuation zero on every day. *)
Theorem constant_series_flat (b : float) (n : nat) :
  is_finite b = true ->
  exists rel fluct,
    compute_relative_change (repeat b n) = Ok rel /\
    compute_fluctuation (repeat b n) = Ok fluct /\
    length rel = n /\ length fluct = n /\
    Forall (fun r => (r =? 0)%float = true) rel /\
    Forall (fun f => (f =? 0)%float = true) fluct.
Proof.
  intros Hfin. destruct n as [|n].
  { exists [], []. repeat split; constructor. }
  cbn [repeat]. rewrite compute_relative_change_cons, compute_fluctuation_cons.
  change (b :: repeat b n) with (repeat b (S n)). rewrite combine_repeat_tl.
  eexists _, _. split; [reflexivity|]. split; [reflexivity|].
  split; [rewrite length_map, repeat_length; reflexivity|].
  split; [cbn [length]; rewrite length_map, repeat_length; reflexivity|].
  split.
  - apply Forall_forall. intros r Hr. apply in_map_iff in Hr. destruct Hr as (v & <- & Hv).
    apply repeat_spec in Hv. subst v.
    cbn [feqb of_int binary64]. change (float_of_int 0) with 0%float.
    destruct (b =? 0)%float eqn:E; [reflexivity|].
    apply float_pct_from_self; assumption.
  - constructor; [reflexivity|].
    apply Forall_forall. intros f Hf. apply in_map_iff in Hf. destruct Hf as (pc & <- & Hpc).
    apply repeat_spec in Hpc. subst pc. cbn [fst snd]. apply float_pct_change_self, Hfin.
Qed.

Lemma constant_series_flat_witness :
  exists rel fluct,
    compute_relative_change (repeat 100%float 3) = Ok rel /\
    compute_fluctuation (repeat 100%float 3) = Ok fluct /\
    length rel = 3%nat /\ length fluct = 3%nat /\
    Forall (fun r => (r =? 0)%float = true) rel /\
    Forall (fun f => (f =? 0)%float = true) fluct.
Proof. apply (constant_series_flat 100 3). reflexivity. Defined.

(** A float that is not finite is an infinity or a NaN. *)
Lemma not_finite_cases (x : float) :
  is_finite x = false ->
  (exists s, Prim2SF x = S754_infinity s) \/ Prim2SF x = S754_nan.
Proof.
  unfold is_finite, is_nan, is_infinity. rewrite !eqb_spec, abs_spec.
  change (Prim2SF infinity) with (S754_infinity false).
  destruct (Prim2SF x) as [s|s| |s m e]; cbn.
  - destruct s; discriminate.
  - intros _. left. exists s. reflexivity.
  - intros _. right. reflexivity.
  - unfold SFeqb, SFcompare. destruct s; cbn; rewrite Z.compare_refl, Pos.compare_cont_refl;
      discriminate.
Qed.

Lemma SF_pct_nonfinite (v b c : spec_float) :
  (exists s, b = S754_infinity s) \/ b = S754_nan ->
  SF64mul (SF64div (SF64sub v b) b) c = S754_nan.
Proof.
  intros [[s ->]| ->].
  - destruct v as [[]|[]| |[] m e], s; reflexivity.
  - destruct v as [[]|[]| |[] m e]; reflexivity.
Qed.

(** Measured against an infinite or NaN baseline, every value is NaN. *)
Lemma float_pct_from_nonfinite (b v : float) :
  is_finite b = false -> (b =? 0)%float = false /\ is_nan (pct_from b v) = true.
Proof.
  intros Hinf. pose proof (not_finite_cases b Hinf) as Hb. split.
  - rewrite eqb_spec. destruct Hb as [[s ->]| ->]; [destruct s|]; reflexivity.
  - unfold is_nan, pct_from. cbn [fmul fdiv fsub of_int binary64].
    rewrite eqb_spec, mul_spec, div_spec, sub_spec, (SF_pct_nonfinite _ _ _ Hb). reflexivity.
Qed.

(** X9: on binary64 compute_relative_change keeps the length of a non-empty
    sequence; when the first value is finite the result starts with a zero
    (0.0 or -0.0); when the first value is an infinity or a NaN every
    element of the result is a NaN. *)
Theorem relative_change_baseline (baseline : float) (rest : list float) :
  exists rel,
    compute_relative_change (baseline :: rest) = Ok rel /\
    length rel = S (length rest) /\
    (is_finite baseline = true ->
     exists r0 rs, rel = r0 :: rs /\ (r0 =? 0)%float = true) /\
    (is_finite baseline = false -> Forall (fun r => is_nan r = true) rel).
Proof.
  rewrite compute_relative_change_cons. eexists. split; [reflexivity|].
  split; [rewrite length_map; reflexivity|]. split.
  - intros Hfin. cbn [map]. eexists _, _. split; [reflexivity|].
    cbn [feqb of_int binary64]. change (float_of_int 0) with 0%float.
    destruct (baseline =? 0)%float eqn:E; [reflexivity|].
    apply float_pct_from_self; assumption.
  - intros Hinf. apply Forall_forall. intros r Hr. apply in_map_iff in Hr.
    destruct Hr as (v & <- & _).
    destruct (float_pct_from_nonfinite baseline v Hinf) as [Hnz Hnan].
    cbn [feqb of_int binary64]. change (float_of_int 0) with 0%float. rewrite Hnz. exact Hnan.
Qed.

(** ** Records that stop early *)

Section ShortRecords.
Context {F : Type}.
Variable fromisoformat : string -> result datetime.
Variable float_of_str : string -> result F.

Lemma read_rows_skip_blank (fields : list string) (blanks records : csv_file) (taken : nat)
      (st : list datetime * dict (list F)) :
  Forall (fun record => record = []) blanks ->
  read_rows fromisoformat float_of_str fields (blanks ++ records)%list taken st
  = read_rows fromisoformat float_of_str fields records (taken + length blanks) st.
Proof.
  intros Hblank. revert taken.
  induction Hblank as [|record blanks -> _ IH]; intros taken; cbn [app read_rows length].
  - rewrite Nat.add_0_r. reflexivity.
  - rewrite IH. f_equal. lia.
Qed.

(** A cell beyond the end of a record is [None]. *)
Lemma row_get_short (fields row : list string) (key : string) :
  contains (skipn (length row) fields) key = true -> row_get fields row key = Ok None.
Proof. intros Hc. unfold row_get. rewrite Hc. reflexivity. Qed.

(** X15: when the header names the three columns and the first record that
    is not empty stops before the date column, or has a date cell that parses
    and stops before the ABTC column, or has date and ABTC cells that parse
    and stops before the BTC column, load_price_data raises TypeError (the
    missing cell is None) at that record. *)
Theorem load_price_data_short_record
        (file blanks rest : csv_file) (row : list string) :
  let fields := fieldnames_or_empty file in
  contains fields "date" = true ->
  contains fields "ABTC" = true -> contains fields "BTC" = true ->
  tl file = (blanks ++ row :: rest)%list ->
  Forall (fun record => record = []) blanks -> row <> [] ->
  (contains (skipn (length row) fields) "date" = true
   \/ (exists d, (cell <- row_get fields row "date" ;; parse_cell fromisoformat cell) = Ok d)
      /\ (contains (skipn (length row) fields) "ABTC" = true
          \/ (exists v, (cell <- row_get fields row "ABTC" ;; parse_cell float_of_str cell) = Ok v)
             /\ contains (skipn (length row) fields) "BTC" = true)) ->
  load_price_data fromisoformat float_of_str file = (Raise TypeError, S (length blanks)).
Proof.
  intros fields Hd Ha Hb Htl Hblank Hrow Hshort.
  unfold load_price_data. fold fields. cbv zeta. rewrite Hd. cbn [negb filter ASSETS].
  rewrite Ha, Hb. cbn [negb map]. rewrite Htl, read_rows_skip_blank by exact Hblank.
  destruct row as [|c row]; [contradiction|]. cbn [read_rows Nat.add].
  assert (Hr : read_row fromisoformat float_of_str fields (c :: row)
                        ([], [("ABTC", []); ("BTC", [])]) = Raise TypeError).
  { unfold read_row. cbn [foldM ASSETS].
    destruct Hshort as [Hsd|[[d Hdate] Hshort]].
    - rewrite (row_get_short _ _ _ Hsd). reflexivity.
    - destruct (row_get fields (c :: row) "date") as [cd|e]; [|discriminate].
      cbn [bind] in Hdate |- *. rewrite Hdate. cbn [bind].
      destruct Hshort as [Hsa|[[v Hv] Hsb]].
      + rewrite (row_get_short _ _ _ Hsa). reflexivity.
      + destruct (row_get fields (c :: row) "ABTC") as [ca|e]; [|discriminate].
        cbn [bind] in Hv |- *. rewrite Hv. cbn [bind dict_append String.eqb Ascii.eqb Bool.eqb].
        rewrite (row_get_short _ _ _ Hsb). reflexivity. }
  cbn [map ASSETS]. rewrite Hr. reflexivity.
Qed.

End ShortRecords.

Lemma load_price_data_short_record_witness :
  load_price_data (fun _ => Ok {| year := 2024; month := 1; day := 1;
                                  hour := 0; minute := 0; second := 0 |})
                  refuse_float
                  [["date"; "ABTC"; "BTC"]; []; ["2024-01-01"]; ["2024-01-02"; "1"; "2"]]
  = (Raise TypeError, 2%nat).
Proof.
  apply (load_price_data_short_record
           (fun _ => Ok {| year := 2024; month := 1; day := 1;
                           hour := 0; minute := 0; second := 0 |})
           refuse_float
           [["date"; "ABTC"; "BTC"]; []; ["2024-01-01"]; ["2024-01-02"; "1"; "2"]]
           [[]] [["2024-01-02"; "1"; "2"]] ["2024-01-01"]);
    try reflexivity.
  - constructor; [reflexivity|constructor].
  - discriminate.
  - right. split; [eexists; reflexivity|left; reflexivity].
Defined.

(** ** The right scale in exact arithmetic *)


Section ExactRightScale.
Local Open Scope Q_scope.



End ExactRightScale.


(** ** The program, the labels and the document *)


(** X6: for n >= 1 dates the indices labelled by lines 228-234 are strictly
    increasing, start with 0, end with n - 1, and are at most 9 (9 is
    reached for n = 9). *)
Theorem x_axis_label_order (count : Z) :
  1 <= count ->
  StronglySorted Z.lt (label_indices count) /\
  (exists rest, label_indices count = 0 :: rest) /\
  (exists front, label_indices count = (front ++ [count - 1])%list) /\
  (length (label_indices count) <= 9)%nat.
Proof.
  intros Hc. split; [apply label_indices_sorted|].
  split; [apply label_indices_first, Hc|].
  split; [apply label_indices_last, Hc|apply label_indices_count].
Qed.

Lemma x_axis_label_order_witness :
  StronglySorted Z.lt (label_indices 9) /\
  (exists rest, label_indices 9 = 0 :: rest) /\
  (exists front, label_indices 9 = (front ++ [9 - 1])%list) /\
  (length (label_indices 9) <= 9)%nat.
Proof. apply (x_axis_label_order 9). lia. Defined.

(** X7: on binary64, for a series without an empty price list that has
    ABTC and BTC, the document has 47 elements besides the date labels, one
    more per labelled index, hence at most 56; the first is the XML
    declaration and the last closes the svg element. *)
Theorem svg_document_shape (float_str : float -> string) (series : PriceSeries float) :
  (forall asset values, In (asset, values) (prices series) -> values <> []) ->
  (forall asset, In asset ASSETS -> exists values, dict_get (prices series) asset = Ok values) ->
  exists parts,
    svg_parts float_str series = Ok parts /\
    length parts = (47 + length (label_indices (Z.of_nat (length (dates series)))))%nat /\
    (length parts <= 56)%nat /\
    hd_error parts = Some "<?xml version='1.0' encoding='utf-8'?>" /\
    list_last parts = Ok "</svg>".
Proof.
  intros Hne Hassets.
  destruct (svg_parts_succeeds float_str series Hne Hassets) as [parts Hsvg].
  destruct (svg_parts_length float_str series parts Hsvg) as (Hlen & Hhd & Hlast).
  exists parts. split; [exact Hsvg|]. split; [exact Hlen|]. split; [|split; assumption].
  pose proof (label_indices_count (Z.of_nat (length (dates series)))). lia.
Qed.

Lemma svg_document_shape_witness :
  let d := {| year := 2024; month := 1; day := 1; hour := 0; minute := 0; second := 0 |} in
  let series := {| dates := [d; d];
                   prices := [("ABTC", [100; 110]%float); ("BTC", [200; 190]%float)] |} in
  exists parts,
    svg_parts (fun _ => "") series = Ok parts /\
    length parts = (47 + length (label_indices (Z.of_nat (length (dates series)))))%nat /\
    (length parts <= 56)%nat /\
    hd_error parts = Some "<?xml version='1.0' encoding='utf-8'?>" /\
    list_last parts = Ok "</svg>".
Proof.
  intros d series. apply (svg_document_shape (fun _ => "") series).
  - intros asset values [Heq|[Heq|[]]]; injection Heq as _ <-; discriminate.
  - intros asset [<-|[<-|[]]]; eexists; reflexivity.
Defined.


(** ** Ticks and units *)

Section ExactTicks.
Local Open Scope Q_scope.








End ExactTicks.
